(** * ChargeMonitor: the decision-and-control loop of meross-power-notify

    A shallow embedding of [src/server/src/monitors/chargeMonitor.ts].

    Modelling conventions.
    - A JavaScript [number] that carries a price, a percentage or a power
      is an exact rational ([Q]); rounding of binary floating point, [NaN]
      and the infinities are outside the model.  Two rationals are compared
      with [==] ([Qeq]), never with Leibniz equality.
    - Epoch timestamps and counts are integers ([Z]), in milliseconds.
    - A [Partial<T>] object whose keys the code itself sets to [undefined]
      (the last-update snapshot) distinguishes an absent key, a key holding
      [undefined] and a key holding a value; object spread copies the last
      two alike.
    - The class is a record of its three mutable fields; methods are
      computations in a small monad that threads the instance, the trace of
      observable effects (log lines, plug commands, sleeps) and a thrown
      error.  What an awaited collaborator answers is an input of the
      method. *)

From Stdlib Require Import ZArith QArith Qround Qminmax.
From Stdlib Require Import List Bool Lia Lqa String.
From Stdlib Require Import Sorted Permutation.
Import ListNotations.

Local Open Scope Z_scope.

(** ** JavaScript objects with optional keys *)

Module JS.

(** One key of a [Partial<T>] object. *)
Inductive Field (A : Type) : Type :=
| Absent
| Undefined
| Present (a : A).
Arguments Absent {A}.
Arguments Undefined {A}.
Arguments Present {A} a.

(** [{ ...old, ...new }] on one key: an own key of [new] wins, whatever
    it holds. *)
Definition spread {A} (old new : Field A) : Field A :=
  match new with
  | Absent => old
  | _ => new
  end.

(** [xs.slice(0, end)] for an integer [end]: a negative [end] counts
    from the back, and both bounds are clamped to the array. *)
Definition slice0 {A} (xs : list A) (end_ : Z) : list A :=
  let len := Z.of_nat (List.length xs) in
  let final := if end_ <? 0 then Z.max (len + end_) 0 else Z.min end_ len in
  firstn (Z.to_nat final) xs.

(** [xs[xs.length - 1]]: [undefined] on the empty array. *)
Definition lastElement {A} (xs : list A) : option A :=
  nth_error xs (List.length xs - 1)%nat.

(** [ToIntegerOrInfinity] on a finite number: truncation toward zero. *)
Definition toInteger (q : Q) : Z := Z.quot (Qnum q) (Zpos (Qden q)).

Definition Qltb (x y : Q) : bool := negb (Qle_bool y x).

End JS.

Import JS.

(** ** Wall-clock time

    One reading of the clock: the epoch time [Date.now()] and the offset of
    local time from UTC, both in milliseconds.  Local calendar fields follow
    from the two by integer arithmetic (a zone with a fixed offset). *)

Module Date.

Record Clock : Type := mkClock { nowMs : Z; utcOffsetMs : Z }.

Definition msPerMinute : Z := 60000.
Definition msPerHour : Z := 3600000.
Definition msPerDay : Z := 86400000.

Definition localMs (c : Clock) : Z := nowMs c + utcOffsetMs c.

(** Days since the epoch, in local time. *)
Definition localDay (c : Clock) : Z := localMs c / msPerDay.

(** [getDay()]: 0 is Sunday; 1 January 1970 was a Thursday. *)
Definition getDay (c : Clock) : Z := (localDay c + 4) mod 7.

Definition getHours (c : Clock) : Z := (localMs c mod msPerDay) / msPerHour.

Definition getMinutes (c : Clock) : Z := (localMs c mod msPerHour) / msPerMinute.

(** [d.setDate(d.getDate() + days); d.setHours(hour, 0, 0, 0); d.getTime()]
    on a date that reads [c]. *)
Definition atHour (c : Clock) (days : Z) (hour : Q) : Z :=
  (localDay c + days) * msPerDay + toInteger hour * msPerHour - utcOffsetMs c.

End Date.

Import Date.

(** ** Data model ([models/chargeMonitor], as used by the monitor) *)

Record ChargeMonitorSettings : Type := mkSettings {
  cutoffHour : Q;
  maxPrice : Q;
  stateOfCharge : Q;
  preferredPrice : Q
}.

(** [Partial<ChargeMonitorSettings>]: each key absent or holding a number. *)
Record PartialSettings : Type := mkPartial {
  p_cutoffHour : option Q;
  p_maxPrice : option Q;
  p_stateOfCharge : option Q;
  p_preferredPrice : option Q
}.

(** [Partial<typeof this.settings> & { expireAt: number }]. *)
Record OverrideSettings : Type := mkOverride {
  overlay : PartialSettings;
  expireAt : Z
}.

Inductive PriceType : Type := CurrentInterval | ForecastInterval.

Record Price : Type := mkPrice {
  perKwh : Q;
  endTimestamp : Z;
  type : PriceType
}.

Record ChargingTime : Type := mkChargingTime {
  time : Z;
  price : Q
}.

(** [Partial<ChargeMonitorLastUpdate>].  [predictedAveragePrice] is a
    quotient whose divisor can be zero: [None] stands for [NaN]. *)
Record LastUpdate : Type := mkLastUpdate {
  lu_lowestPrices : Field (list Price);
  lu_priceMax : Field Q;
  lu_currentPrice : Field Price;
  lu_cutoff : Field Z;
  lu_settings : Field ChargeMonitorSettings;
  lu_charge : Field bool;
  lu_predictedStateOfCharge : Field Q;
  lu_predictedAveragePrice : Field (option Q);
  lu_isPluggedIn : Field bool;
  lu_chargingTimes : Field (list ChargingTime)
}.

(** The object literal [{}]. *)
Definition emptyUpdate : LastUpdate :=
  mkLastUpdate Absent Absent Absent Absent Absent Absent Absent Absent Absent Absent.

(** [{ ...old, ...new }] on snapshots. *)
Definition spreadUpdate (old new : LastUpdate) : LastUpdate :=
  {| lu_lowestPrices := spread (lu_lowestPrices old) (lu_lowestPrices new);
     lu_priceMax := spread (lu_priceMax old) (lu_priceMax new);
     lu_currentPrice := spread (lu_currentPrice old) (lu_currentPrice new);
     lu_cutoff := spread (lu_cutoff old) (lu_cutoff new);
     lu_settings := spread (lu_settings old) (lu_settings new);
     lu_charge := spread (lu_charge old) (lu_charge new);
     lu_predictedStateOfCharge :=
       spread (lu_predictedStateOfCharge old) (lu_predictedStateOfCharge new);
     lu_predictedAveragePrice :=
       spread (lu_predictedAveragePrice old) (lu_predictedAveragePrice new);
     lu_isPluggedIn := spread (lu_isPluggedIn old) (lu_isPluggedIn new);
     lu_chargingTimes := spread (lu_chargingTimes old) (lu_chargingTimes new) |}.

(** The instance: its three mutable fields. *)
Record ChargeMonitor : Type := mkMonitor {
  settings : ChargeMonitorSettings;
  lastUpdate : LastUpdate;
  overrideSettings : OverrideSettings
}.

(** Field initialisers of the class. *)
Definition initialSettings : ChargeMonitorSettings :=
  {| cutoffHour := 15; maxPrice := 35; stateOfCharge := 85; preferredPrice := 18 |}.

Definition noOverlay : PartialSettings := mkPartial None None None None.

Definition newChargeMonitor : ChargeMonitor :=
  {| settings := initialSettings;
     lastUpdate := emptyUpdate;
     overrideSettings := {| overlay := noOverlay; expireAt := 0 |} |}.

(** ** Effects *)

Inductive Error : Type :=
| DataUnavailable (source : string)   (* whatever a collaborator rejected with *)
| TypeErrorUndefinedPerKwh            (* reading [perKwh] of [undefined] *)
| NoCurrentPriceFound.                (* [new Error('No current price found')] *)

Inductive Message : Type :=
| UpdatedOverrideSettings (o : OverrideSettings)
| NotEnoughPrices
| ChargingIsAt (power newStateOfCharge : Q)
| TurnOnCharging
| TurnOffCharging
| WaitForMinutes (next : Z)
| RetryAfterOneMinute.

Inductive Event : Type :=
| LogInfo (m : Message)
| LogError (e : Error)
| PlugCommand (on : bool)
| Sleep (ms : Z)
| Interrupt.

(** A settled promise of a collaborator, or the completion of a method. *)
Inductive Outcome (A : Type) : Type :=
| Resolved (a : A)
| Rejected (e : Error).
Arguments Resolved {A} a.
Arguments Rejected {A} e.

(** A method: from the instance to its completion, the instance it leaves
    (mutations made before a throw stay) and the effects in order. *)
Definition M (A : Type) : Type := ChargeMonitor -> Outcome A * ChargeMonitor * list Event.

Definition ret {A} (a : A) : M A := fun this => (Resolved a, this, []).

Definition bind {A B} (m : M A) (k : A -> M B) : M B :=
  fun this =>
    match m this with
    | (Resolved a, this1, tr1) =>
        match k a this1 with
        | (r, this2, tr2) => (r, this2, tr1 ++ tr2)
        end
    | (Rejected e, this1, tr1) => (Rejected e, this1, tr1)
    end.

Definition throw {A} (e : Error) : M A := fun this => (Rejected e, this, []).

(** [try { m } catch (e) { handler e }]. *)
Definition tryCatch {A} (m : M A) (handler : Error -> M A) : M A :=
  fun this =>
    match m this with
    | (Resolved a, this1, tr1) => (Resolved a, this1, tr1)
    | (Rejected e, this1, tr1) =>
        match handler e this1 with
        | (r, this2, tr2) => (r, this2, tr1 ++ tr2)
        end
    end.

Definition get : M ChargeMonitor := fun this => (Resolved this, this, []).
Definition put (this' : ChargeMonitor) : M unit := fun _ => (Resolved tt, this', []).
Definition emit (e : Event) : M unit := fun this => (Resolved tt, this, [e]).

(** [await p] for a promise that settles as [p]. *)
Definition await {A} (p : Outcome A) : M A := fun this => (p, this, []).

Definition when (b : bool) (m : M unit) : M unit := if b then m else ret tt.

Declare Scope monitor_scope.
Delimit Scope monitor_scope with monitor.
Notation "x <- m ;; k" := (bind m (fun x => k))
  (at level 61, m at next level, right associativity) : monitor_scope.
Notation "m ;; k" := (bind m (fun _ => k))
  (at level 61, right associativity) : monitor_scope.

Definition outcome {A} (r : Outcome A * ChargeMonitor * list Event) : Outcome A := fst (fst r).
Definition instance {A} (r : Outcome A * ChargeMonitor * list Event) : ChargeMonitor := snd (fst r).
Definition trace {A} (r : Outcome A * ChargeMonitor * list Event) : list Event := snd r.

Local Open Scope monitor_scope.

(** ** The class [ChargeMonitor] *)

(** [setLastUpdate(values)].  An array is truthy, [undefined] and an absent
    key are not: the two histories are joined only when both are arrays. *)
Definition setLastUpdate (values : LastUpdate) : M unit :=
  this <- get ;;
  let values :=
    match lu_chargingTimes values, lu_chargingTimes (lastUpdate this) with
    | Present new, Present old =>
        {| lu_lowestPrices := lu_lowestPrices values;
           lu_priceMax := lu_priceMax values;
           lu_currentPrice := lu_currentPrice values;
           lu_cutoff := lu_cutoff values;
           lu_settings := lu_settings values;
           lu_charge := lu_charge values;
           lu_predictedStateOfCharge := lu_predictedStateOfCharge values;
           lu_predictedAveragePrice := lu_predictedAveragePrice values;
           lu_isPluggedIn := lu_isPluggedIn values;
           lu_chargingTimes := Present (old ++ new) |}
    | _, _ => values
    end in
  put {| settings := settings this;
         lastUpdate := spreadUpdate (lastUpdate this) values;
         overrideSettings := overrideSettings this |}.

(** [calculateTimeToNextMinute()]. *)
Definition calculateTimeToNextMinute (now : Clock) : Z :=
  let currentMinute := getMinutes now in
  (if 30 <? currentMinute then 60 else 30) - currentMinute + 1.

(** [overrideSettingsValid()]. *)
Definition overrideSettingsValid (now : Clock) (this : ChargeMonitor) : bool :=
  nowMs now <=? expireAt (overrideSettings this).

(** [{ ...this.settings, ...this.overrideSettings }]. *)
Definition spreadSettings (base : ChargeMonitorSettings) (o : PartialSettings)
  : ChargeMonitorSettings :=
  {| cutoffHour := match p_cutoffHour o with Some v => v | None => cutoffHour base end;
     maxPrice := match p_maxPrice o with Some v => v | None => maxPrice base end;
     stateOfCharge :=
       match p_stateOfCharge o with Some v => v | None => stateOfCharge base end;
     preferredPrice :=
       match p_preferredPrice o with Some v => v | None => preferredPrice base end |}.

(** [getSettings()]. *)
Definition getSettings (now : Clock) (this : ChargeMonitor) : ChargeMonitorSettings :=
  if overrideSettingsValid now this then
    spreadSettings (settings this) (overlay (overrideSettings this))
  else
    let cutoff : Q :=
      if ((getDay now =? 5) && (15 <=? getHours now))
         || ((getDay now =? 6) && (getHours now <? 9)) then 9%Q
      else if ((getDay now =? 6) && (9 <=? getHours now))
              || ((getDay now =? 0) && (getHours now <? 10)) then 10%Q
      else 15%Q in
    {| cutoffHour := cutoff;
       maxPrice := maxPrice (settings this);
       stateOfCharge := stateOfCharge (settings this);
       preferredPrice := preferredPrice (settings this) |}.

(** [getUpcomingCutoff()]. *)
Definition getUpcomingCutoff (now : Clock) (this : ChargeMonitor) : Z :=
  let currentHour := getHours now in
  let settings := getSettings now this in
  let days := if Qle_bool (cutoffHour settings) (inject_Z currentHour) then 1 else 0 in
  atHour now days (cutoffHour settings).

(** [getLastUpdate()]. *)
Definition getLastUpdate (this : ChargeMonitor) : LastUpdate := lastUpdate this.

(** [updateOverrideSettings(settings, updateExpiry = true)]. *)
Definition updateOverrideSettings (now : Clock) (values : PartialSettings)
  (updateExpiry : bool) : M unit :=
  this <- get ;;
  let o := {| overlay := values;
              expireAt := if updateExpiry then nowMs now + 24 * 60 * 60 * 1000
                          else expireAt (overrideSettings this) |} in
  put {| settings := settings this;
         lastUpdate := lastUpdate this;
         overrideSettings := o |} ;;
  emit Interrupt ;;
  emit (LogInfo (UpdatedOverrideSettings o)).

(** [Math.ceil((100 - settings.stateOfCharge + 0.1) / 1.25)]. *)
Definition requiredTimeOf (s : ChargeMonitorSettings) : Z :=
  Qceiling ((100 - stateOfCharge s + (1 # 10)) / (5 # 4)).

(** [xs.sort((a, b) => a.perKwh - b.perKwh)]: ascending by [perKwh], and
    stable, so elements of equal price keep their order.  Insertion from the
    right is one such sort; a stable sort has one result. *)
Fixpoint insertByPerKwh (a : Price) (xs : list Price) : list Price :=
  match xs with
  | [] => [a]
  | b :: rest =>
      if Qle_bool (perKwh a) (perKwh b) then a :: xs
      else b :: insertByPerKwh a rest
  end.

Definition sortByPerKwh (xs : list Price) : list Price :=
  fold_right insertByPerKwh [] xs.

(** The array [validPrices] after it has been filtered and sorted. *)
Definition validPricesOf (cutoff : Z) (prices : list Price) : list Price :=
  sortByPerKwh (filter (fun price => endTimestamp price <=? cutoff) prices).

Definition isCurrentInterval (p : Price) : bool :=
  match type p with
  | CurrentInterval => true
  | ForecastInterval => false
  end.

Definition sumPerKwh (xs : list Price) : Q :=
  fold_left (fun accumulator currentValue => accumulator + perKwh currentValue)%Q xs 0%Q.

(** [sum / xs.length], which is [NaN] on the empty array.  The value is
    the exact mean; the code's is that mean as rounded by each addition and
    by the division, so only whether it is a number is read off here. *)
Definition averagePerKwh (xs : list Price) : option Q :=
  match xs with
  | [] => None
  | _ => Some (sumPerKwh xs / inject_Z (Z.of_nat (List.length xs)))%Q
  end.

(** [shouldCharge()]; [upcomingRates] is what [getUpcomingRates()] settles
    as, [now] the clock when the method resumes. *)
Definition shouldCharge (now : Clock) (upcomingRates : Outcome (list Price)) : M bool :=
  prices <- await upcomingRates ;;
  this <- get ;;
  let cutoff := getUpcomingCutoff now this in
  let settings := getSettings now this in
  let requiredTime := requiredTimeOf settings in
  let validPrices := validPricesOf cutoff prices in
  let lowestPrices := slice0 validPrices requiredTime in
  last <- match lastElement lowestPrices with
          | Some p => ret p
          | None => throw TypeErrorUndefinedPerKwh
          end ;;
  let priceMax := Qmin (perKwh last + 1) (maxPrice settings) in
  when (Z.of_nat (List.length lowestPrices) <? requiredTime)
       (emit (LogInfo NotEnoughPrices)) ;;
  currentPrice <- match find isCurrentInterval prices with
                  | Some p => ret p
                  | None => throw NoCurrentPriceFound
                  end ;;
  let decision := Qltb (perKwh currentPrice) priceMax in
  let predictedOnState :=
    filter (fun price => Qle_bool (perKwh price) priceMax) validPrices in
  let predictedStateOfCharge :=
    Qmin (inject_Z (Z.of_nat (List.length predictedOnState)) * (5 # 4)
          + stateOfCharge settings) 100 in
  let predictedAveragePrice := averagePerKwh predictedOnState in
  setLastUpdate
    {| lu_lowestPrices := Present lowestPrices;
       lu_priceMax := Present priceMax;
       lu_currentPrice := Present currentPrice;
       lu_cutoff := Present cutoff;
       lu_settings := Present settings;
       lu_charge := Present decision;
       lu_predictedStateOfCharge := Present predictedStateOfCharge;
       lu_predictedAveragePrice := Present predictedAveragePrice;
       lu_isPluggedIn := Absent;
       lu_chargingTimes := Absent |} ;;
  ret decision.

(** [recordPower()]; [plug] is what [getMerossPlug('EV')] settles as (its
    [power]), [start] the clock before the call and [sampled] after it. *)
Definition recordPower (start : Clock) (plug : Outcome Q) (sampled : Clock) : M bool :=
  this <- get ;;
  let settings := getSettings start this in
  power <- await plug ;;
  if Qltb 1000 power then
    let newStateOfCharge := Qmin (stateOfCharge settings + (5 # 4)) 100 in
    emit (LogInfo (ChargingIsAt power newStateOfCharge)) ;;
    this <- get ;;
    when (overrideSettingsValid sampled this)
         (updateOverrideSettings sampled
            {| p_cutoffHour := None; p_maxPrice := None;
               p_stateOfCharge := Some newStateOfCharge;
               p_preferredPrice := None |} false) ;;
    ret true
  else ret false.

(** [setMerossPlug('EV', on)] settling as [answer]. *)
Definition setMerossPlug (on : bool) (answer : Outcome unit) : M unit :=
  emit (PlugCommand on) ;; await answer.

(** [this.interruptableSleep.sleep(ms)]. *)
Definition sleep (ms : Z) : M unit := emit (Sleep ms).

(** [this.getLastUpdate()?.currentPrice?.perKwh || 0]. *)
Definition lastPriceOrZero (this : ChargeMonitor) : Q :=
  match lu_currentPrice (getLastUpdate this) with
  | Present p => if Qeq_bool (perKwh p) 0 then 0%Q else perKwh p
  | _ => 0%Q
  end.

(** What the collaborators answer, and what the clock reads, during one
    turn of the loop.  Code that runs between two awaits shares one
    reading. *)
Record Cycle : Type := mkCycle {
  evaluated : Clock;                     (* [shouldCharge] after the fetch *)
  upcomingRates : Outcome (list Price);  (* [getUpcomingRates()] *)
  plugSet : Outcome unit;                (* [setMerossPlug('EV', _)] *)
  recording : Clock;                     (* [recordPower] before the sample *)
  merossPlug : Outcome Q;                (* [getMerossPlug('EV')].power *)
  sampled : Clock;                       (* after the sample *)
  scheduling : Clock                     (* [calculateTimeToNextMinute] *)
}.

(** The [try] block of [monitor()]. *)
Definition monitorTry (c : Cycle) : M unit :=
  charge <- shouldCharge (evaluated c) (upcomingRates c) ;;
  (if charge : bool then
     emit (LogInfo TurnOnCharging) ;;
     setMerossPlug true (plugSet c) ;;
     sleep 20000 ;;
     isPluggedIn <- recordPower (recording c) (merossPlug c) (sampled c) ;;
     this <- get ;;
     setLastUpdate
       {| lu_lowestPrices := Absent; lu_priceMax := Absent;
          lu_currentPrice := Absent; lu_cutoff := Absent;
          lu_settings := Absent; lu_charge := Absent;
          lu_predictedStateOfCharge := Absent;
          lu_predictedAveragePrice := Absent;
          lu_isPluggedIn := Present isPluggedIn;
          lu_chargingTimes :=
            if isPluggedIn : bool
            then Present [ {| time := nowMs (sampled c);
                              price := lastPriceOrZero this |} ]
            else Undefined |}
   else
     emit (LogInfo TurnOffCharging) ;;
     setMerossPlug false (plugSet c) ;;
     setLastUpdate
       {| lu_lowestPrices := Absent; lu_priceMax := Absent;
          lu_currentPrice := Absent; lu_cutoff := Absent;
          lu_settings := Absent; lu_charge := Absent;
          lu_predictedStateOfCharge := Absent;
          lu_predictedAveragePrice := Absent;
          lu_isPluggedIn := Present false;
          lu_chargingTimes := Absent |}) ;;
  let next := calculateTimeToNextMinute (scheduling c) in
  emit (LogInfo (WaitForMinutes next)) ;;
  sleep (next * 60 * 1000).

(** One turn of [while (true)]: the [try] block and its [catch]. *)
Definition monitorCycle (c : Cycle) : M unit :=
  tryCatch (monitorTry c)
    (fun e =>
       emit (LogError e) ;;
       emit (LogInfo RetryAfterOneMinute) ;;
       sleep 60000).

(** [monitor()] over the turns whose inputs are given: the loop has no
    exit, so a run is described by each of its finite prefixes. *)
Fixpoint monitor (cycles : list Cycle) : M unit :=
  match cycles with
  | [] => ret tt
  | c :: rest => monitorCycle c ;; monitor rest
  end.

(** ** Observations of one call

    The local constants of [shouldCharge] as functions of what the method
    reads, and the history kept in the snapshot. *)

(** [lowestPrices]. *)
Definition cheapestWindow (now : Clock) (this : ChargeMonitor) (prices : list Price)
  : list Price :=
  slice0 (validPricesOf (getUpcomingCutoff now this) prices)
         (requiredTimeOf (getSettings now this)).

(** [priceMax]; no value when reading it throws. *)
Definition priceMaxOf (now : Clock) (this : ChargeMonitor) (prices : list Price)
  : option Q :=
  match lastElement (cheapestWindow now this prices) with
  | Some p => Some (Qmin (perKwh p + 1) (maxPrice (getSettings now this)))
  | None => None
  end.

(** The charging events the snapshot holds. *)
Definition history (this : ChargeMonitor) : list ChargingTime :=
  match lu_chargingTimes (lastUpdate this) with
  | Present entries => entries
  | _ => []
  end.

Definition ascending (a b : Price) : Prop := (perKwh a <= perKwh b)%Q.

(** The calendar rule in the words of the specification, on the hours
    elapsed since Sunday 00:00 local time: cutoff 9 from Friday 15:00 to
    Saturday 09:00, cutoff 10 from Saturday 09:00 to Sunday 10:00, the
    baseline cutoff otherwise. *)
Definition calendarCutoff (baseline : Q) (day hour : Z) : Q :=
  let weekHour := day * 24 + hour in
  if (5 * 24 + 15 <=? weekHour) && (weekHour <? 6 * 24 + 9) then 9%Q
  else if (6 * 24 + 9 <=? weekHour) || (weekHour <? 10) then 10%Q
  else baseline.

(** What a caller of the class can do to an instance. *)
Inductive Call : Type :=
| CallSetLastUpdate (values : LastUpdate)
| CallUpdateOverrideSettings (now : Clock) (values : PartialSettings) (updateExpiry : bool)
| CallShouldCharge (now : Clock) (rates : Outcome (list Price))
| CallRecordPower (start : Clock) (plug : Outcome Q) (sampled : Clock)
| CallMonitor (cycles : list Cycle).

Definition perform (c : Call) (this : ChargeMonitor) : ChargeMonitor :=
  match c with
  | CallSetLastUpdate values => instance (setLastUpdate values this)
  | CallUpdateOverrideSettings now values updateExpiry =>
      instance (updateOverrideSettings now values updateExpiry this)
  | CallShouldCharge now rates => instance (shouldCharge now rates this)
  | CallRecordPower start plug sampled => instance (recordPower start plug sampled this)
  | CallMonitor cycles => instance (monitor cycles this)
  end.

(** The instances a process can hold: the fresh one and what calls make
    of it. *)
Inductive reachable : ChargeMonitor -> Prop :=
| reachable_new : reachable newChargeMonitor
| reachable_call c this : reachable this -> reachable (perform c this).

(** A method that never assigns [this.settings]. *)
Definition keepsSettings {A} (m : M A) : Prop :=
  forall this, settings (instance (m this)) = settings this.

(** ** Scenarios

    Monday 1 January 2024, 08:00 UTC, read in a zone at offset zero: the
    cutoff is 15:00 of the same day. *)
Definition mondayMorning : Clock := {| nowMs := 1704096000000; utcOffsetMs := 0 |}.

Definition halfHour : Z := 1800000.

(** The interval that ends [n] half hours after [mondayMorning]. *)
Definition interval (n : Z) (cents : Z) (t : PriceType) : Price :=
  {| perKwh := inject_Z cents;
     endTimestamp := nowMs mondayMorning + n * halfHour;
     type := t |}.

Definition currentAt14 : Price := interval 1 14 CurrentInterval.

(** Twelve intervals before the cutoff, the current one priced 14. *)
Definition twelveIntervals : list Price :=
  currentAt14 ::
  map (fun '(n, cents) => interval n cents ForecastInterval)
      [(2, 10); (3, 12); (4, 16); (5, 18); (6, 20); (7, 22);
       (8, 24); (9, 26); (10, 28); (11, 30); (12, 32)].

(** The clock [d] days, [h] hours and [m] minutes after Monday 1 January
    2024, 00:00 UTC, in a zone at offset zero. *)
Definition clockAt (d h m : Z) : Clock :=
  {| nowMs := 1704067200000 + d * msPerDay + h * msPerHour + m * msPerMinute;
     utcOffsetMs := 0 |}.

(** The overlay [{ stateOfCharge: newStateOfCharge }] that [recordPower]
    hands to [updateOverrideSettings]. *)
Definition incrementOverlay (newStateOfCharge : Q) : PartialSettings :=
  {| p_cutoffHour := None; p_maxPrice := None;
     p_stateOfCharge := Some newStateOfCharge; p_preferredPrice := None |}.

(** What [recordPower] leaves in [this.overrideSettings] after a sample
    above 1000 W. *)
Definition overrideAfterSample (start sampled : Clock) (this : ChargeMonitor)
  : OverrideSettings :=
  if overrideSettingsValid sampled this then
    {| overlay :=
         incrementOverlay
           (Qmin (stateOfCharge (getSettings start this) + (5 # 4)) 100);
       expireAt := expireAt (overrideSettings this) |}
  else overrideSettings this.

(** A turn on Monday morning: the twelve intervals, a plug that obeys and
    reports 1500 W twenty seconds later. *)
Definition chargingTurn : Cycle :=
  {| evaluated := mondayMorning;
     upcomingRates := Resolved twelveIntervals;
     plugSet := Resolved tt;
     recording := {| nowMs := nowMs mondayMorning + 20000; utcOffsetMs := 0 |};
     merossPlug := Resolved 1500%Q;
     sampled := {| nowMs := nowMs mondayMorning + 20500; utcOffsetMs := 0 |};
     scheduling := {| nowMs := nowMs mondayMorning + 20500; utcOffsetMs := 0 |} |}.

(** The same turn with a plug that reports 500 W: the command was obeyed
    but the vehicle draws nothing. *)
Definition unpluggedTurn : Cycle :=
  {| evaluated := evaluated chargingTurn;
     upcomingRates := upcomingRates chargingTurn;
     plugSet := plugSet chargingTurn;
     recording := recording chargingTurn;
     merossPlug := Resolved 500%Q;
     sampled := sampled chargingTurn;
     scheduling := scheduling chargingTurn |}.

(** The snapshot [{ isPluggedIn: false, chargingTimes: undefined }] that
    [monitor] passes to [setLastUpdate] after such a sample. *)
Definition unpluggedUpdate : LastUpdate :=
  {| lu_lowestPrices := Absent; lu_priceMax := Absent; lu_currentPrice := Absent;
     lu_cutoff := Absent; lu_settings := Absent; lu_charge := Absent;
     lu_predictedStateOfCharge := Absent; lu_predictedAveragePrice := Absent;
     lu_isPluggedIn := Present false; lu_chargingTimes := Undefined |}.

(** An instance whose operator asked, on Monday morning, for a price
    ceiling of 20 and declared the battery at 85 percent. *)
Definition requestedOverlay : PartialSettings :=
  {| p_cutoffHour := None; p_maxPrice := Some 20%Q;
     p_stateOfCharge := Some 85%Q; p_preferredPrice := None |}.

Definition overriddenMonitor : ChargeMonitor :=
  instance (updateOverrideSettings mondayMorning requestedOverlay true newChargeMonitor).

(** A batch whose only interval is the current one and ends half an hour
    after the cutoff of Monday 15:00. *)
Definition lateBatch : list Price := [ interval 15 14 CurrentInterval ].

Definition lateTurn : Cycle :=
  {| evaluated := evaluated chargingTurn;
     upcomingRates := Resolved lateBatch;
     plugSet := plugSet chargingTurn;
     recording := recording chargingTurn;
     merossPlug := merossPlug chargingTurn;
     sampled := sampled chargingTurn;
     scheduling := scheduling chargingTurn |}.

(** An explicit request that declares the battery at 150 percent. *)
Definition overchargedOverlay : PartialSettings :=
  {| p_cutoffHour := None; p_maxPrice := None;
     p_stateOfCharge := Some 150%Q; p_preferredPrice := None |}.

(** ** Observations used beyond the claims *)

(** The clock [minutes] minutes after [now], in the same zone: when a sleep
    of that length ends if nothing interrupts it. *)
Definition minutesLater (now : Clock) (minutes : Z) : Clock :=
  {| nowMs := nowMs now + minutes * msPerMinute; utcOffsetMs := utcOffsetMs now |}.

(** [predictedOnState] for a given ceiling. *)
Definition predictedOnStateOf (now : Clock) (this : ChargeMonitor) (prices : list Price)
  (priceMax : Q) : list Price :=
  filter (fun price => Qle_bool (perKwh price) priceMax)
         (validPricesOf (getUpcomingCutoff now this) prices).

(** A method that leaves the observation [f] of the instance as it was. *)
Definition keeps {A X} (f : ChargeMonitor -> X) (m : M A) : Prop :=
  forall this, f (instance (m this)) = f this.

(** A trace in which the plug is never commanded. *)
Definition noPlugCommand (tr : list Event) : Prop :=
  forall on, ~ In (PlugCommand on) tr.

(** Successive calls of [setLastUpdate]. *)
Definition applyUpdates (updates : list LastUpdate) (this : ChargeMonitor)
  : ChargeMonitor :=
  fold_left (fun that values => instance (setLastUpdate values that)) updates this.

(** A snapshot whose key [chargingTimes] does not hold [undefined]. *)
Definition definedChargingTimes (values : LastUpdate) : Prop :=
  lu_chargingTimes values <> Undefined.

(** The plug commands of a trace, in order. *)
Fixpoint plugCommands (tr : list Event) : list bool :=
  match tr with
  | [] => []
  | PlugCommand on :: rest => on :: plugCommands rest
  | _ :: rest => plugCommands rest
  end.

(** The entries a snapshot carries for the charging history. *)
Definition entriesOf (values : LastUpdate) : list ChargingTime :=
  match lu_chargingTimes values with
  | Present entries => entries
  | _ => []
  end.

(** When the override expires. *)
Definition expiry (this : ChargeMonitor) : Z := expireAt (overrideSettings this).

(** The calls that do not write [this.overrideSettings]: every call but
    a request, a power sample and the loop that samples. *)
Definition leavesOverride (c : Call) : Prop :=
  match c with
  | CallSetLastUpdate _ => True
  | CallShouldCharge _ _ => True
  | _ => False
  end.

(** Calls made one after the other. *)
Definition performAll (calls : list Call) (this : ChargeMonitor) : ChargeMonitor :=
  fold_left (fun that c => perform c that) calls this.

(** ** Sorting and slicing *)

Section Sorting.

Local Open Scope Q_scope.

Lemma insertByPerKwh_perm a xs : Permutation (insertByPerKwh a xs) (a :: xs).
Proof.
  induction xs as [|b rest IH]; simpl.
  - apply Permutation_refl.
  - destruct (Qle_bool (perKwh a) (perKwh b)).
    + apply Permutation_refl.
    + apply perm_trans with (b :: a :: rest).
      * now apply perm_skip.
      * apply perm_swap.
Qed.

Lemma sortByPerKwh_perm xs : Permutation (sortByPerKwh xs) xs.
Proof.
  induction xs as [|a rest IH]; simpl.
  - apply perm_nil.
  - apply perm_trans with (a :: sortByPerKwh rest).
    + apply insertByPerKwh_perm.
    + now apply perm_skip.
Qed.

Lemma insertByPerKwh_sorted a xs :
  StronglySorted ascending xs -> StronglySorted ascending (insertByPerKwh a xs).
Proof.
  induction 1 as [|b rest Hs IH Hb]; simpl.
  - repeat constructor.
  - destruct (Qle_bool (perKwh a) (perKwh b)) eqn:E.
    + apply Qle_bool_iff in E.
      constructor; [now constructor|].
      constructor; [exact E|].
      eapply Forall_impl; [|exact Hb].
      intros c Hc. unfold ascending in *. now apply Qle_trans with (perKwh b).
    + assert (Hba : perKwh b <= perKwh a).
      { apply Qlt_le_weak, Qnot_le_lt. intro H.
        apply Qle_bool_iff in H. congruence. }
      constructor; [exact IH|].
      eapply Permutation_Forall.
      * apply Permutation_sym, insertByPerKwh_perm.
      * now constructor.
Qed.

Lemma sortByPerKwh_sorted xs : StronglySorted ascending (sortByPerKwh xs).
Proof.
  induction xs as [|a rest IH]; simpl.
  - constructor.
  - now apply insertByPerKwh_sorted.
Qed.

Lemma In_prefix {A} n (xs : list A) x : In x (firstn n xs) -> In x xs.
Proof.
  revert n; induction xs as [|a rest IH]; intros [|n]; simpl; try tauto.
  intros [->|H]; [now left|right; eauto].
Qed.

Lemma firstn_sorted n xs :
  StronglySorted ascending xs -> StronglySorted ascending (firstn n xs).
Proof.
  intros Hs. revert n.
  induction Hs as [|b rest Hs IH Hb]; intros [|n]; simpl; try constructor.
  - apply IH.
  - rewrite Forall_forall in *. intros c Hc.
    apply Hb. eapply In_prefix; exact Hc.
Qed.

(** The last element of an ascending array is one of greatest price. *)
Lemma lastElement_sorted_max xs top :
  StronglySorted ascending xs -> lastElement xs = Some top ->
  In top xs /\ forall p, In p xs -> perKwh p <= perKwh top.
Proof.
  unfold lastElement. intros Hs.
  induction Hs as [|b rest Hs IH Hb]; simpl.
  - discriminate.
  - destruct rest as [|c rest'].
    + simpl. intros [= ->]. split; [now left|].
      intros p [->|[]]. apply Qle_refl.
    + simpl in *. rewrite Nat.sub_0_r in *. intros H.
      destruct (IH H) as [Hin Hmax]. split; [now right|].
      intros p [->|Hp]; [|now apply Hmax].
      rewrite Forall_forall in Hb. now apply Hb.
Qed.

Lemma lastElement_nonempty {A} (xs : list A) :
  xs <> [] -> exists x, lastElement xs = Some x.
Proof.
  unfold lastElement. intros H.
  destruct (nth_error xs (List.length xs - 1)) eqn:E; [eauto|].
  apply nth_error_None in E. destruct xs; [congruence|simpl in E; lia].
Qed.

Lemma lastElement_empty {A} : @lastElement A [] = None.
Proof. reflexivity. Qed.

Lemma slice0_prefix {A} (xs : list A) end_ : exists n, slice0 xs end_ = firstn n xs.
Proof. unfold slice0. eauto. Qed.

Lemma slice0_count {A} (xs : list A) end_ :
  (0 <= end_)%Z -> slice0 xs end_ = firstn (Z.to_nat end_) xs.
Proof.
  intros H. unfold slice0.
  destruct (end_ <? 0)%Z eqn:E; [apply Z.ltb_lt in E; lia|].
  destruct (Z.le_gt_cases end_ (Z.of_nat (List.length xs))) as [Hle|Hgt].
  - now rewrite Z.min_l.
  - rewrite Z.min_r by lia. rewrite Nat2Z.id.
    rewrite firstn_all. symmetry. apply firstn_all2. lia.
Qed.

(** The sort is stable: the intervals of any one price keep the order they
    had in the batch. *)
Lemma insertByPerKwh_stable q a xs :
  filter (fun p => Qeq_bool (perKwh p) q) (insertByPerKwh a xs)
  = filter (fun p => Qeq_bool (perKwh p) q) (a :: xs).
Proof.
  induction xs as [|b rest IH]; [reflexivity|].
  cbn [insertByPerKwh].
  destruct (Qle_bool (perKwh a) (perKwh b)) eqn:E; [reflexivity|].
  cbn [filter] in *. rewrite IH.
  destruct (Qeq_bool (perKwh a) q) eqn:Ea; [|reflexivity].
  destruct (Qeq_bool (perKwh b) q) eqn:Eb; [|reflexivity].
  apply Qeq_bool_iff in Ea, Eb.
  assert (Hle : perKwh a <= perKwh b) by (rewrite Ea, Eb; apply Qle_refl).
  apply Qle_bool_iff in Hle. congruence.
Qed.

Lemma sortByPerKwh_stable q xs :
  filter (fun p => Qeq_bool (perKwh p) q) (sortByPerKwh xs)
  = filter (fun p => Qeq_bool (perKwh p) q) xs.
Proof.
  induction xs as [|a rest IH]; [reflexivity|].
  cbn [sortByPerKwh fold_right]. fold (sortByPerKwh rest).
  rewrite insertByPerKwh_stable. cbn [filter]. now rewrite IH.
Qed.

(** A battery at 100 percent or less requires at least one interval. *)
Lemma requiredTimeOf_positive s :
  stateOfCharge s <= 100 -> (1 <= requiredTimeOf s)%Z.
Proof.
  intros H. unfold requiredTimeOf.
  set (x := (100 - stateOfCharge s + (1 # 10)) / (5 # 4)).
  assert (Hx : 0 < x).
  { unfold x. apply Qlt_shift_div_l; [reflexivity|].
    rewrite Qmult_0_l.
    apply Qlt_le_trans with (1 # 10); [reflexivity|].
    rewrite <- (Qplus_0_l (1 # 10)) at 1.
    apply Qplus_le_l. now apply -> Qle_minus_iff. }
  pose proof (Qle_ceiling x) as Hc.
  assert (Hz : 0 < inject_Z (Qceiling x)) by (eapply Qlt_le_trans; eassumption).
  change 0 with (inject_Z 0) in Hz. rewrite <- Zlt_Qlt in Hz. lia.
Qed.

Lemma cheapestWindow_sorted now this prices :
  StronglySorted ascending (cheapestWindow now this prices).
Proof.
  unfold cheapestWindow.
  destruct (slice0_prefix (validPricesOf (getUpcomingCutoff now this) prices)
              (requiredTimeOf (getSettings now this))) as [n ->].
  apply firstn_sorted, sortByPerKwh_sorted.
Qed.

End Sorting.

(** ** Runs of [shouldCharge] *)

Section ShouldCharge.

Local Open Scope Q_scope.

Variables (now : Clock) (this : ChargeMonitor) (prices : list Price).

Lemma Qltb_lt x y : Qltb x y = true <-> x < y.
Proof.
  unfold Qltb. rewrite negb_true_iff. split.
  - intros H. apply Qnot_le_lt. intros Hle.
    apply Qle_bool_iff in Hle. congruence.
  - intros H. destruct (Qle_bool y x) eqn:E; [|reflexivity].
    apply Qle_bool_iff in E. exfalso. now apply (Qlt_not_le x y).
Qed.

(** A price-source failure leaves the method at once. *)
Lemma shouldCharge_rejected e :
  shouldCharge now (Rejected e) this = (Rejected e, this, []).
Proof. reflexivity. Qed.

(** An empty window: reading the price of its last element throws. *)
Lemma shouldCharge_empty_window :
  cheapestWindow now this prices = [] ->
  shouldCharge now (Resolved prices) this = (Rejected TypeErrorUndefinedPerKwh, this, []).
Proof.
  unfold cheapestWindow, shouldCharge, bind, await, get. intros H.
  rewrite H. reflexivity.
Qed.

(** A window but no current interval. *)
Lemma shouldCharge_no_current top :
  lastElement (cheapestWindow now this prices) = Some top ->
  find isCurrentInterval prices = None ->
  outcome (shouldCharge now (Resolved prices) this) = Rejected NoCurrentPriceFound
  /\ instance (shouldCharge now (Resolved prices) this) = this.
Proof.
  unfold cheapestWindow, shouldCharge, bind, await, get, when. intros H1 H2.
  rewrite H1, H2.
  destruct (Z.of_nat _ <? _)%Z; split; reflexivity.
Qed.

(** A window and a current interval: the method returns, and the snapshot
    holds the constants of the call. *)
Lemma shouldCharge_resolved top current :
  lastElement (cheapestWindow now this prices) = Some top ->
  find isCurrentInterval prices = Some current ->
  let priceMax := Qmin (perKwh top + 1) (maxPrice (getSettings now this)) in
  let r := shouldCharge now (Resolved prices) this in
  outcome r = Resolved (Qltb (perKwh current) priceMax)
  /\ lu_priceMax (lastUpdate (instance r)) = Present priceMax
  /\ lu_lowestPrices (lastUpdate (instance r)) = Present (cheapestWindow now this prices)
  /\ lu_currentPrice (lastUpdate (instance r)) = Present current
  /\ lu_chargingTimes (lastUpdate (instance r)) = lu_chargingTimes (lastUpdate this)
  /\ overrideSettings (instance r) = overrideSettings this
  /\ settings (instance r) = settings this.
Proof.
  unfold cheapestWindow, shouldCharge, bind, await, get, when. intros H1 H2.
  rewrite H1, H2.
  destruct (Z.of_nat _ <? _)%Z;
    unfold setLastUpdate, bind, get, put, emit, ret, outcome, instance;
    cbn [fst snd lu_chargingTimes lastUpdate lu_priceMax lu_lowestPrices
         lu_currentPrice spreadUpdate spread overrideSettings settings];
    repeat split; reflexivity.
Qed.

End ShouldCharge.

(** ** C1 and C2: the price ceiling and the decision *)

(** C1.  For every batch whose cheapest window is not empty and in which
    [prices.find] meets a current interval, [shouldCharge] returns, and it
    returns [true] exactly when the price of that interval is strictly
    below [priceMax], the ceiling the call computes and records; at a price
    equal to [priceMax] it returns [false]. *)
Theorem shouldCharge_decision_strict
  (now : Clock) (this : ChargeMonitor) (prices : list Price) (current : Price) :
  find isCurrentInterval prices = Some current ->
  cheapestWindow now this prices <> [] ->
  exists (priceMax : Q) (decision : bool),
    priceMaxOf now this prices = Some priceMax
    /\ lu_priceMax (lastUpdate (instance (shouldCharge now (Resolved prices) this)))
       = Present priceMax
    /\ outcome (shouldCharge now (Resolved prices) this) = Resolved decision
    /\ (decision = true <-> (perKwh current < priceMax)%Q)
    /\ ((perKwh current == priceMax)%Q -> decision = false).
Proof.
  intros Hcur Hne.
  destruct (lastElement_nonempty _ Hne) as [top Htop].
  destruct (shouldCharge_resolved now this prices top current Htop Hcur)
    as (Hout & Hmax & _).
  exists (Qmin (perKwh top + 1) (maxPrice (getSettings now this))).
  exists (Qltb (perKwh current) (Qmin (perKwh top + 1) (maxPrice (getSettings now this)))).
  unfold priceMaxOf. rewrite Htop.
  split; [reflexivity|].
  split; [exact Hmax|].
  split; [exact Hout|].
  split; [apply Qltb_lt|].
  intros Heq.
  -
    destruct (Qltb _ _) eqn:E; [|reflexivity].
    apply Qltb_lt in E. rewrite Heq in E. exfalso. now apply (Qlt_irrefl _ E).
Qed.

(** The settings a call that returns records are the effective ones. *)
Lemma shouldCharge_recorded_settings now this prices top current :
  lastElement (cheapestWindow now this prices) = Some top ->
  find isCurrentInterval prices = Some current ->
  lu_settings (lastUpdate (instance (shouldCharge now (Resolved prices) this)))
  = Present (getSettings now this).
Proof.
  unfold cheapestWindow, shouldCharge, bind, await, get, when. intros H1 H2.
  rewrite H1, H2.
  destruct (Z.of_nat _ <? _)%Z;
    unfold setLastUpdate, bind, get, put, emit, ret, instance;
    cbn [fst snd lu_chargingTimes lastUpdate lu_settings spreadUpdate spread];
    reflexivity.
Qed.

(** C2.  On every invocation whose cheapest window is not empty and whose
    batch has a current interval, [shouldCharge] returns, and the
    [priceMax] it records is the lesser of (the greatest [perKwh] in the
    window it records) + 1 and the [maxPrice] of the effective settings it
    records; so it never exceeds that [maxPrice]. *)
Theorem priceMax_min_of_window_top_and_maxPrice
  (now : Clock) (this : ChargeMonitor) (prices : list Price) (current : Price) :
  find isCurrentInterval prices = Some current ->
  cheapestWindow now this prices <> [] ->
  exists (decision : bool) (priceMax : Q) (window : list Price) (top : Price),
    outcome (shouldCharge now (Resolved prices) this) = Resolved decision
    /\ lu_priceMax (lastUpdate (instance (shouldCharge now (Resolved prices) this)))
       = Present priceMax
    /\ lu_lowestPrices (lastUpdate (instance (shouldCharge now (Resolved prices) this)))
       = Present window
    /\ lu_settings (lastUpdate (instance (shouldCharge now (Resolved prices) this)))
       = Present (getSettings now this)
    /\ In top window
    /\ (forall p, In p window -> (perKwh p <= perKwh top)%Q)
    /\ (priceMax == Qmin (perKwh top + 1) (maxPrice (getSettings now this)))%Q
    /\ (priceMax <= maxPrice (getSettings now this))%Q.
Proof.
  intros Hcur Hne.
  destruct (lastElement_nonempty _ Hne) as [top Htop].
  destruct (lastElement_sorted_max _ _ (cheapestWindow_sorted now this prices) Htop)
    as [Hin Hmax].
  destruct (shouldCharge_resolved now this prices top current Htop Hcur)
    as (Hout & Hpm & Hlow & _).
  exists (Qltb (perKwh current)
            (Qmin (perKwh top + 1) (maxPrice (getSettings now this)))).
  exists (Qmin (perKwh top + 1) (maxPrice (getSettings now this))).
  exists (cheapestWindow now this prices), top.
  split; [exact Hout|].
  split; [exact Hpm|].
  split; [exact Hlow|].
  split; [now apply shouldCharge_recorded_settings with (top := top) (current := current)|].
  split; [exact Hin|].
  split; [exact Hmax|].
  split; [apply Qeq_refl|].
  apply Q.le_min_r.
Qed.

Lemma shouldCharge_decision_strict_witness :
  find isCurrentInterval twelveIntervals = Some currentAt14
  /\ cheapestWindow mondayMorning newChargeMonitor twelveIntervals <> []
  /\ exists (priceMax : Q) (decision : bool),
       priceMaxOf mondayMorning newChargeMonitor twelveIntervals = Some priceMax
       /\ lu_priceMax
            (lastUpdate
               (instance (shouldCharge mondayMorning (Resolved twelveIntervals)
                            newChargeMonitor)))
          = Present priceMax
       /\ outcome (shouldCharge mondayMorning (Resolved twelveIntervals) newChargeMonitor)
          = Resolved decision
       /\ (decision = true <-> (perKwh currentAt14 < priceMax)%Q)
       /\ ((perKwh currentAt14 == priceMax)%Q -> decision = false).
Proof.
  split; [reflexivity|].
  split; [vm_compute; discriminate|].
  apply (shouldCharge_decision_strict mondayMorning newChargeMonitor
           twelveIntervals currentAt14).
  - reflexivity.
  - vm_compute; discriminate.
Defined.

Lemma priceMax_min_of_window_top_and_maxPrice_witness :
  find isCurrentInterval twelveIntervals = Some currentAt14
  /\ cheapestWindow mondayMorning newChargeMonitor twelveIntervals <> []
  /\ exists (decision : bool) (priceMax : Q) (window : list Price) (top : Price),
       outcome (shouldCharge mondayMorning (Resolved twelveIntervals) newChargeMonitor)
       = Resolved decision
       /\ lu_priceMax
            (lastUpdate
               (instance (shouldCharge mondayMorning (Resolved twelveIntervals)
                            newChargeMonitor)))
          = Present priceMax
       /\ lu_lowestPrices
            (lastUpdate
               (instance (shouldCharge mondayMorning (Resolved twelveIntervals)
                            newChargeMonitor)))
          = Present window
       /\ lu_settings
            (lastUpdate
               (instance (shouldCharge mondayMorning (Resolved twelveIntervals)
                            newChargeMonitor)))
          = Present (getSettings mondayMorning newChargeMonitor)
       /\ In top window
       /\ (forall p, In p window -> (perKwh p <= perKwh top)%Q)
       /\ (priceMax
           == Qmin (perKwh top + 1) (maxPrice (getSettings mondayMorning newChargeMonitor)))%Q
       /\ (priceMax <= maxPrice (getSettings mondayMorning newChargeMonitor))%Q.
Proof.
  split; [reflexivity|].
  split; [vm_compute; discriminate|].
  apply (priceMax_min_of_window_top_and_maxPrice mondayMorning newChargeMonitor
           twelveIntervals currentAt14).
  - reflexivity.
  - vm_compute; discriminate.
Defined.

(** The end-to-end scenario of the specification: thirteen intervals are
    required, twelve are there, the ceiling is 33 and a current price of 14
    charges. *)
Example scenario_current_14 :
  shouldCharge mondayMorning (Resolved twelveIntervals) newChargeMonitor
  = (Resolved true,
     instance (shouldCharge mondayMorning (Resolved twelveIntervals) newChargeMonitor),
     [LogInfo NotEnoughPrices])
  /\ priceMaxOf mondayMorning newChargeMonitor twelveIntervals = Some 33%Q.
Proof. split; vm_compute; reflexivity. Qed.

(** ** The baseline settings are never assigned *)

Section KeepsSettings.

Context {A B : Type}.

Lemma keeps_ret (a : A) : keepsSettings (ret a).
Proof. intros this. reflexivity. Qed.

Lemma keeps_throw e : keepsSettings (@throw A e).
Proof. intros this. reflexivity. Qed.

Lemma keeps_await (p : Outcome A) : keepsSettings (await p).
Proof. intros this. reflexivity. Qed.

Lemma keeps_bind (m : M A) (k : A -> M B) :
  keepsSettings m -> (forall a, keepsSettings (k a)) -> keepsSettings (bind m k).
Proof.
  intros Hm Hk this. unfold bind, instance.
  specialize (Hm this). unfold instance in Hm.
  destruct (m this) as [[[a|e] this1] tr1]; simpl in *; [|exact Hm].
  specialize (Hk a this1). unfold instance in Hk.
  destruct (k a this1) as [[r this2] tr2]; simpl in *. congruence.
Qed.

Lemma keeps_tryCatch (m : M A) (handler : Error -> M A) :
  keepsSettings m -> (forall e, keepsSettings (handler e)) ->
  keepsSettings (tryCatch m handler).
Proof.
  intros Hm Hh this. unfold tryCatch, instance.
  specialize (Hm this). unfold instance in Hm.
  destruct (m this) as [[[a|e] this1] tr1]; simpl in *; [exact Hm|].
  specialize (Hh e this1). unfold instance in Hh.
  destruct (handler e this1) as [[r this2] tr2]; simpl in *. congruence.
Qed.

End KeepsSettings.

Lemma keeps_get : keepsSettings get.
Proof. intros this. reflexivity. Qed.

Lemma keeps_emit e : keepsSettings (emit e).
Proof. intros this. reflexivity. Qed.

Lemma keeps_when b m : keepsSettings m -> keepsSettings (when b m).
Proof. destruct b; [trivial|]. intros _. apply keeps_ret. Qed.

Lemma keeps_setLastUpdate values : keepsSettings (setLastUpdate values).
Proof. intros this. reflexivity. Qed.

Lemma keeps_updateOverrideSettings now values updateExpiry :
  keepsSettings (updateOverrideSettings now values updateExpiry).
Proof. intros this. reflexivity. Qed.

Ltac keeps :=
  repeat first
    [ apply keeps_ret | apply keeps_throw | apply keeps_await | apply keeps_get
    | apply keeps_emit | apply keeps_setLastUpdate
    | apply keeps_updateOverrideSettings
    | apply keeps_when
    | apply keeps_bind; [|intros ?]
    | match goal with
      | |- keepsSettings (match ?x with _ => _ end) => destruct x
      end ].

Lemma keeps_shouldCharge now rates : keepsSettings (shouldCharge now rates).
Proof. unfold shouldCharge. keeps. Qed.

Lemma keeps_recordPower start plug sampled :
  keepsSettings (recordPower start plug sampled).
Proof. unfold recordPower. keeps. Qed.

Lemma keeps_monitorCycle c : keepsSettings (monitorCycle c).
Proof.
  unfold monitorCycle. apply keeps_tryCatch.
  - unfold monitorTry, setMerossPlug, sleep.
    apply keeps_bind; [apply keeps_shouldCharge|]. intros charge.
    apply keeps_bind; [|intros ?; keeps].
    destruct charge.
    + do 3 (apply keeps_bind; [keeps|intros ?]).
      apply keeps_bind; [apply keeps_recordPower|intros ?]. keeps.
    + keeps.
  - intros e. unfold sleep. keeps.
Qed.

Lemma keeps_monitor cycles : keepsSettings (monitor cycles).
Proof.
  induction cycles as [|c rest IH]; simpl.
  - apply keeps_ret.
  - apply keeps_bind; [apply keeps_monitorCycle|intros ?; exact IH].
Qed.

Lemma reachable_settings this : reachable this -> settings this = initialSettings.
Proof.
  induction 1 as [|c this Hr IH]; [reflexivity|].
  transitivity (settings this); [|exact IH].
  destruct c; unfold perform.
  - apply keeps_setLastUpdate.
  - apply keeps_updateOverrideSettings.
  - apply keeps_shouldCharge.
  - apply keeps_recordPower.
  - apply keeps_monitor.
Qed.

(** ** C5: the calendar rule *)

Lemma getDay_range now : 0 <= getDay now < 7.
Proof. unfold getDay. apply Z.mod_pos_bound. lia. Qed.

Lemma getHours_range now : 0 <= getHours now < 24.
Proof.
  unfold getHours, msPerDay, msPerHour.
  pose proof (Z.mod_pos_bound (localMs now) 86400000 ltac:(lia)) as H.
  split.
  - apply Z.div_pos; lia.
  - apply Z.div_lt_upper_bound; lia.
Qed.

(** The test of [getSettings] on day and hour is the rule on week hours. *)
Lemma calendar_test day hour :
  0 <= day < 7 -> 0 <= hour < 24 ->
  (if ((day =? 5) && (15 <=? hour)) || ((day =? 6) && (hour <? 9)) then 9%Q
   else if ((day =? 6) && (9 <=? hour)) || ((day =? 0) && (hour <? 10)) then 10%Q
   else 15%Q)
  = calendarCutoff 15 day hour.
Proof.
  intros Hd Hh. unfold calendarCutoff.
  repeat match goal with
  | |- context [?a =? ?b] =>
      destruct (Z.eqb_spec a b)
  | |- context [?a <=? ?b] =>
      destruct (Z.leb_spec a b)
  | |- context [?a <? ?b] =>
      destruct (Z.ltb_spec a b)
  end; simpl; try reflexivity; lia.
Qed.

(** C5.  On an instance a process can hold, when no override is valid,
    [getSettings] returns the baseline settings with [cutoffHour] set by
    the calendar rule at the local day and hour of the call: 9 from Friday
    15:00 to Saturday 09:00, 10 from Saturday 09:00 to Sunday 10:00, the
    baseline cutoff hour at any other time. *)
Theorem getSettings_calendar_cutoff (now : Clock) (this : ChargeMonitor) :
  reachable this ->
  overrideSettingsValid now this = false ->
  getSettings now this
  = {| cutoffHour :=
         calendarCutoff (cutoffHour (settings this)) (getDay now) (getHours now);
       maxPrice := maxPrice (settings this);
       stateOfCharge := stateOfCharge (settings this);
       preferredPrice := preferredPrice (settings this) |}.
Proof.
  intros Hr Hv. unfold getSettings. rewrite Hv.
  rewrite (calendar_test _ _ (getDay_range now) (getHours_range now)).
  rewrite (reachable_settings this Hr). reflexivity.
Qed.

Lemma getSettings_calendar_cutoff_witness :
  reachable newChargeMonitor
  /\ overrideSettingsValid (clockAt 4 15 0) newChargeMonitor = false
  /\ getSettings (clockAt 4 15 0) newChargeMonitor
     = {| cutoffHour :=
            calendarCutoff (cutoffHour (settings newChargeMonitor))
              (getDay (clockAt 4 15 0)) (getHours (clockAt 4 15 0));
          maxPrice := maxPrice (settings newChargeMonitor);
          stateOfCharge := stateOfCharge (settings newChargeMonitor);
          preferredPrice := preferredPrice (settings newChargeMonitor) |}.
Proof.
  split; [exact reachable_new|].
  split; [reflexivity|].
  apply (getSettings_calendar_cutoff (clockAt 4 15 0) newChargeMonitor).
  - exact reachable_new.
  - reflexivity.
Defined.

(** The boundaries of the rule, on the fresh instance: Friday 14:59 and
    15:00, Saturday 08:59 and 09:00, Sunday 09:59 and 10:00, Wednesday
    noon. *)
Example calendar_boundaries :
  map (fun now => cutoffHour (getSettings now newChargeMonitor))
      [clockAt 4 14 59; clockAt 4 15 0; clockAt 5 8 59; clockAt 5 9 0;
       clockAt 6 9 59; clockAt 6 10 0; clockAt 2 12 0]
  = [15; 9; 9; 10; 10; 15; 15]%Q.
Proof. vm_compute. reflexivity. Qed.

(** ** Runs of [recordPower] and of one turn of the loop *)

Section RecordPower.

Local Open Scope Q_scope.

Variables (start sampled : Clock) (this : ChargeMonitor) (power : Q).

(** A sample above 1000 W: the method returns [true], touches nothing but
    the override, and touches that only when it is valid. *)
Lemma recordPower_charging :
  1000 < power ->
  exists tr,
    recordPower start (Resolved power) sampled this
    = (Resolved true,
       {| settings := settings this;
          lastUpdate := lastUpdate this;
          overrideSettings := overrideAfterSample start sampled this |},
       tr).
Proof.
  intros H. apply Qltb_lt in H.
  unfold recordPower, overrideAfterSample, bind, await, get, when. rewrite H.
  unfold emit, bind.
  destruct (overrideSettingsValid sampled this); eexists.
  - reflexivity.
  - destruct this; reflexivity.
Qed.

(** A sample of 1000 W or less: the method returns [false] and does
    nothing. *)
Lemma recordPower_idle :
  power <= 1000 ->
  recordPower start (Resolved power) sampled this = (Resolved false, this, []).
Proof.
  intros H. unfold recordPower, bind, await, get.
  destruct (Qltb 1000 power) eqn:E; [|reflexivity].
  apply Qltb_lt in E. exfalso. now apply (Qlt_not_le 1000 power).
Qed.

End RecordPower.

Section ChargingTurn.

Local Open Scope Q_scope.

Variables (c : Cycle) (this this1 : ChargeMonitor) (tr1 : list Event) (power : Q).

Hypothesis decided :
  shouldCharge (evaluated c) (upcomingRates c) this = (Resolved true, this1, tr1).
Hypothesis commanded : plugSet c = Resolved tt.
Hypothesis sample : merossPlug c = Resolved power.
Hypothesis drawing : 1000 < power.

(** The turn that finds the vehicle drawing power. *)
Lemma monitorCycle_charging :
  outcome (monitorCycle c this) = Resolved tt
  /\ lu_isPluggedIn (lastUpdate (instance (monitorCycle c this))) = Present true
  /\ lu_chargingTimes (lastUpdate (instance (monitorCycle c this)))
     = Present (history this1
                ++ [ {| time := nowMs (sampled c); price := lastPriceOrZero this1 |} ])
  /\ overrideSettings (instance (monitorCycle c this))
     = overrideAfterSample (recording c) (sampled c) this1.
Proof.
  destruct (recordPower_charging (recording c) (sampled c) this1 power drawing)
    as [tr2 Hrec].
  unfold monitorCycle, tryCatch, monitorTry, setMerossPlug, sleep, bind, emit, await.
  rewrite decided. cbv beta iota.
  rewrite commanded. cbv beta iota.
  rewrite sample, Hrec. cbv beta iota.
  unfold setLastUpdate, bind, get, put, history, lastPriceOrZero,
    getLastUpdate, outcome, instance.
  cbn [fst snd lastUpdate lu_chargingTimes lu_isPluggedIn lu_currentPrice
       overrideSettings].
  destruct (lu_chargingTimes (lastUpdate this1));
    cbn [fst snd lastUpdate lu_chargingTimes lu_isPluggedIn spreadUpdate spread
         overrideSettings app];
    repeat split; reflexivity.
Qed.

End ChargingTurn.

(** A call that returns had a window and a current interval. *)
Lemma shouldCharge_returns_inv now rates this decision :
  outcome (shouldCharge now rates this) = Resolved decision ->
  exists prices top current,
    rates = Resolved prices
    /\ lastElement (cheapestWindow now this prices) = Some top
    /\ find isCurrentInterval prices = Some current.
Proof.
  destruct rates as [prices|e]; [|discriminate].
  intros H. exists prices.
  destruct (lastElement (cheapestWindow now this prices)) as [top|] eqn:Htop.
  - destruct (find isCurrentInterval prices) as [current|] eqn:Hcur; [eauto|].
    destruct (shouldCharge_no_current now this prices top Htop Hcur) as [H' _].
    rewrite H' in H. discriminate.
  - assert (Hw : cheapestWindow now this prices = []).
    { destruct (cheapestWindow now this prices) as [|p w] eqn:E; [reflexivity|].
      destruct (lastElement_nonempty (p :: w)) as [x Hx]; [discriminate|].
      congruence. }
    rewrite (shouldCharge_empty_window now this prices Hw) in H. discriminate.
Qed.

Lemma lastPriceOrZero_present this current :
  lu_currentPrice (lastUpdate this) = Present current ->
  (lastPriceOrZero this == perKwh current)%Q.
Proof.
  unfold lastPriceOrZero, getLastUpdate. intros ->.
  destruct (Qeq_bool (perKwh current) 0) eqn:E; [|apply Qeq_refl].
  apply Qeq_bool_iff in E. now apply Qeq_sym.
Qed.

(** ** C10: a charging sample is recorded, override or not *)

(** C10.  In the charging branch (the decision was [true] and the plug
    took the command), a sample above 1000 W makes [recordPower] return
    [true] on any instance, whether its override is valid or not, and the
    turn ends with [isPluggedIn = true] and one entry appended to the
    charging history: its time is the clock after the sample and its price
    that of the current interval just snapshotted.  The price read from a
    snapshot without a current price is 0. *)
Theorem charging_sample_recorded
  (c : Cycle) (this : ChargeMonitor) (power : Q) :
  outcome (shouldCharge (evaluated c) (upcomingRates c) this) = Resolved true ->
  plugSet c = Resolved tt ->
  merossPlug c = Resolved power ->
  (1000 < power)%Q ->
  (forall start sampled that,
      outcome (recordPower start (Resolved power) sampled that) = Resolved true)
  /\ outcome (monitorCycle c this) = Resolved tt
  /\ lu_isPluggedIn (lastUpdate (instance (monitorCycle c this))) = Present true
  /\ (exists entry prices current,
        lu_chargingTimes (lastUpdate (instance (monitorCycle c this)))
        = Present (history this ++ [entry])
        /\ time entry = nowMs (sampled c)
        /\ upcomingRates c = Resolved prices
        /\ find isCurrentInterval prices = Some current
        /\ (price entry == perKwh current)%Q)
  /\ (overrideSettingsValid (sampled c) this = false ->
      overrideSettings (instance (monitorCycle c this)) = overrideSettings this)
  /\ (forall that,
        (forall p, lu_currentPrice (lastUpdate that) <> Present p) ->
        lastPriceOrZero that = 0%Q).
Proof.
  intros Hdec Hset Hplug Hpow.
  split.
  { intros start sampled that.
    destruct (recordPower_charging start sampled that power Hpow) as [tr ->].
    reflexivity. }
  destruct (shouldCharge_returns_inv _ _ _ _ Hdec)
    as (prices & top & current & Hrates & Htop & Hcur).
  destruct (shouldCharge (evaluated c) (upcomingRates c) this)
    as [[r this1] tr1] eqn:E.
  unfold outcome in Hdec. simpl in Hdec. subst r.
  destruct (monitorCycle_charging c this this1 tr1 power E Hset Hplug Hpow)
    as (Hout & Hin & Hhist & Hover).
  assert (Hsnap : lu_currentPrice (lastUpdate this1) = Present current
                  /\ lu_chargingTimes (lastUpdate this1)
                     = lu_chargingTimes (lastUpdate this)
                  /\ overrideSettings this1 = overrideSettings this).
  { destruct (shouldCharge_resolved (evaluated c) this prices top current Htop Hcur)
      as (_ & _ & _ & H1 & H2 & H3 & _).
    rewrite <- Hrates, E in H1, H2, H3. now repeat split. }
  destruct Hsnap as (Hprice & Hsame & Hkeep).
  split; [exact Hout|]. split; [exact Hin|]. split; [|split].
  - exists {| time := nowMs (sampled c); price := lastPriceOrZero this1 |},
      prices, current.
    split.
    + rewrite Hhist. unfold history. now rewrite Hsame.
    + split; [reflexivity|]. split; [exact Hrates|]. split; [exact Hcur|].
      now apply lastPriceOrZero_present.
  - intros Hinvalid. rewrite Hover. unfold overrideAfterSample, overrideSettingsValid.
    rewrite Hkeep. unfold overrideSettingsValid in Hinvalid. now rewrite Hinvalid.
  - intros that Hnone. unfold lastPriceOrZero, getLastUpdate.
    destruct (lu_currentPrice (lastUpdate that)) as [| |p]; try reflexivity.
    now destruct (Hnone p).
Qed.

Lemma charging_sample_recorded_witness :
  outcome (shouldCharge (evaluated chargingTurn) (upcomingRates chargingTurn)
             newChargeMonitor) = Resolved true
  /\ plugSet chargingTurn = Resolved tt
  /\ merossPlug chargingTurn = Resolved 1500%Q
  /\ (1000 < 1500)%Q
  /\ overrideSettingsValid (sampled chargingTurn) newChargeMonitor = false
  /\ outcome (monitorCycle chargingTurn newChargeMonitor) = Resolved tt
  /\ lu_isPluggedIn (lastUpdate (instance (monitorCycle chargingTurn newChargeMonitor)))
     = Present true.
Proof.
  split; [vm_compute; reflexivity|].
  split; [reflexivity|].
  split; [reflexivity|].
  split; [reflexivity|].
  split; [reflexivity|].
  destruct (charging_sample_recorded chargingTurn newChargeMonitor 1500%Q)
    as (_ & Hout & Hin & _).
  - vm_compute; reflexivity.
  - reflexivity.
  - reflexivity.
  - reflexivity.
  - split; assumption.
Defined.

(** The same turn, evaluated: the fresh instance has no valid override, the
    increment is dropped and the history gets its first entry. *)
Example chargingTurn_run :
  lu_chargingTimes (lastUpdate (instance (monitorCycle chargingTurn newChargeMonitor)))
  = Present [ {| time := 1704096020500; price := 14 |} ]
  /\ overrideSettings (instance (monitorCycle chargingTurn newChargeMonitor))
     = overrideSettings newChargeMonitor
  /\ trace (monitorCycle chargingTurn newChargeMonitor)
     = [ LogInfo NotEnoughPrices; LogInfo TurnOnCharging; PlugCommand true;
         Sleep 20000; LogInfo (ChargingIsAt 1500 (345 # 4));
         LogInfo (WaitForMinutes 31); Sleep 1860000 ].
Proof. vm_compute. repeat split; reflexivity. Qed.

(** ** C3: what the implicit increment does to the overlay *)

(** After a sample above 1000 W under a valid override, the overlay is
    the single key [stateOfCharge] and the expiry is the one it had. *)
Lemma recordPower_overlay start sampled this power :
  (1000 < power)%Q ->
  overrideSettingsValid sampled this = true ->
  overrideSettings (instance (recordPower start (Resolved power) sampled this))
  = {| overlay :=
         incrementOverlay (Qmin (stateOfCharge (getSettings start this) + (5 # 4)) 100);
       expireAt := expireAt (overrideSettings this) |}.
Proof.
  intros Hpow Hvalid.
  destruct (recordPower_charging start sampled this power Hpow) as [tr ->].
  unfold instance, overrideAfterSample. simpl. now rewrite Hvalid.
Qed.

(** C3.  The operator's override holds [maxPrice = 20] and
    [stateOfCharge = 85] and is valid; a sample of 1500 W follows.  The
    expiry is kept and [stateOfCharge] becomes 86.25, but [maxPrice] leaves
    the overlay: the effective ceiling goes from 20 back to 35. *)
Theorem increment_drops_overlay_maxPrice :
  let before := overriddenMonitor in
  let after :=
    instance (recordPower (recording chargingTurn) (Resolved 1500%Q)
                (sampled chargingTurn) before) in
  overrideSettingsValid (sampled chargingTurn) before = true
  /\ expireAt (overrideSettings after) = expireAt (overrideSettings before)
  /\ p_stateOfCharge (overlay (overrideSettings after)) = Some (345 # 4)%Q
  /\ p_maxPrice (overlay (overrideSettings before)) = Some 20%Q
  /\ p_maxPrice (overlay (overrideSettings after)) = None
  /\ maxPrice (getSettings (sampled chargingTurn) before) = 20%Q
  /\ maxPrice (getSettings (sampled chargingTurn) after) = 35%Q.
Proof. vm_compute. repeat split; reflexivity. Qed.

(** ** C4: the charging history under [setLastUpdate] *)

(** What one call makes of the history: kept when the key is absent,
    extended when it holds entries, emptied when it holds [undefined]. *)
Lemma setLastUpdate_history values this :
  history (instance (setLastUpdate values this))
  = match lu_chargingTimes values with
    | Absent => history this
    | Undefined => []
    | Present entries => history this ++ entries
    end.
Proof.
  destruct values as [? ? ? ? ? ? ? ? ? [| |new]];
    unfold setLastUpdate, bind, get, put, instance, history; simpl;
    destruct (lu_chargingTimes (lastUpdate this)) as [| |old]; reflexivity.
Qed.

(** C4.  One turn records a charging event; the next turn samples 500 W,
    so [monitor] merges [{ isPluggedIn: false, chargingTimes: undefined }]
    and the recorded event is gone.  The same on the bare method. *)
Theorem undefined_chargingTimes_resets_history :
  history (instance (monitor [chargingTurn] newChargeMonitor))
  = [ {| time := 1704096020500; price := 14 |} ]
  /\ history (instance (monitor [chargingTurn; unpluggedTurn] newChargeMonitor)) = []
  /\ lu_chargingTimes
       (lastUpdate (instance (monitor [chargingTurn; unpluggedTurn] newChargeMonitor)))
     = Undefined
  /\ forall this, history (instance (setLastUpdate unpluggedUpdate this)) = [].
Proof.
  split; [vm_compute; reflexivity|].
  split; [vm_compute; reflexivity|].
  split; [vm_compute; reflexivity|].
  intros this. now rewrite setLastUpdate_history.
Qed.

(** ** C6: how the cheapest window is formed *)

Lemma validPricesOf_In cutoff prices p :
  In p (validPricesOf cutoff prices) <-> In p prices /\ endTimestamp p <= cutoff.
Proof.
  unfold validPricesOf. split.
  - intros H.
    apply (Permutation_in _ (sortByPerKwh_perm _)) in H.
    apply filter_In in H. destruct H as [Hin Hle].
    split; [exact Hin|]. now apply Z.leb_le.
  - intros [Hin Hle].
    apply (Permutation_in _ (Permutation_sym (sortByPerKwh_perm _))).
    apply filter_In. split; [exact Hin|]. now apply Z.leb_le.
Qed.

(** C6, as the code has it.  The candidates are all the intervals of the
    batch that end at or before the cutoff, whatever their type, the current
    interval among them; arranged in ascending order of [perKwh], the first
    [requiredTime] of them (all of them when fewer) make the window, which
    is what a call that returns records. *)
Theorem cheapestWindow_formation
  (now : Clock) (this : ChargeMonitor) (prices : list Price) :
  0 <= requiredTimeOf (getSettings now this) ->
  exists candidates : list Price,
    Permutation candidates
      (filter (fun price => endTimestamp price <=? getUpcomingCutoff now this) prices)
    /\ StronglySorted ascending candidates
    /\ (forall p, In p candidates
                  <-> In p prices /\ endTimestamp p <= getUpcomingCutoff now this)
    /\ cheapestWindow now this prices
       = firstn (Z.to_nat (requiredTimeOf (getSettings now this))) candidates
    /\ (forall decision,
          outcome (shouldCharge now (Resolved prices) this) = Resolved decision ->
          lu_lowestPrices (lastUpdate (instance (shouldCharge now (Resolved prices) this)))
          = Present (cheapestWindow now this prices)).
Proof.
  intros Hreq.
  exists (validPricesOf (getUpcomingCutoff now this) prices).
  split; [apply sortByPerKwh_perm|].
  split; [apply sortByPerKwh_sorted|].
  split; [intros p; apply validPricesOf_In|].
  split; [unfold cheapestWindow; now apply slice0_count|].
  intros decision Hd.
  destruct (shouldCharge_returns_inv _ _ _ _ Hd)
    as (prices' & top & current & Heq & Htop & Hcur).
  injection Heq as <-.
  now destruct (shouldCharge_resolved now this prices top current Htop Hcur)
    as (_ & _ & H & _).
Qed.

Lemma cheapestWindow_formation_witness :
  0 <= requiredTimeOf (getSettings mondayMorning newChargeMonitor)
  /\ exists candidates : list Price,
       Permutation candidates
         (filter (fun price =>
                    endTimestamp price <=? getUpcomingCutoff mondayMorning newChargeMonitor)
                 twelveIntervals)
       /\ StronglySorted ascending candidates
       /\ (forall p, In p candidates
                     <-> In p twelveIntervals
                         /\ endTimestamp p <= getUpcomingCutoff mondayMorning newChargeMonitor)
       /\ cheapestWindow mondayMorning newChargeMonitor twelveIntervals
          = firstn (Z.to_nat (requiredTimeOf (getSettings mondayMorning newChargeMonitor)))
              candidates
       /\ (forall decision,
             outcome (shouldCharge mondayMorning (Resolved twelveIntervals) newChargeMonitor)
             = Resolved decision ->
             lu_lowestPrices
               (lastUpdate
                  (instance (shouldCharge mondayMorning (Resolved twelveIntervals)
                               newChargeMonitor)))
             = Present (cheapestWindow mondayMorning newChargeMonitor twelveIntervals)).
Proof.
  split; [vm_compute; discriminate|].
  apply (cheapestWindow_formation mondayMorning newChargeMonitor twelveIntervals).
  vm_compute; discriminate.
Defined.

(** The current interval of the Monday batch ends before the cutoff and is
    among the cheapest: it is in the window. *)
Lemma current_interval_in_window :
  ~ (forall p, In p (cheapestWindow mondayMorning newChargeMonitor twelveIntervals) ->
               type p <> CurrentInterval).
Proof.
  intros H. apply (H currentAt14); [|reflexivity].
  vm_compute. right. right. left. reflexivity.
Qed.

(** ** C7: the range of [stateOfCharge] after an update *)

Lemma getSettings_overlay now this :
  overrideSettingsValid now this = true ->
  getSettings now this = spreadSettings (settings this) (overlay (overrideSettings this)).
Proof. unfold getSettings. now intros ->. Qed.

(** The implicit increment writes the lesser of (the effective
    [stateOfCharge] read before the sample) + 1.25 and 100: the effective
    value is then at most 100, and at least 0 whenever the value read
    was. *)
Lemma increment_capped_at_100
  (this : ChargeMonitor) (start sampled later : Clock) (power : Q) :
  (1000 < power)%Q ->
  overrideSettingsValid sampled this = true ->
  overrideSettingsValid later this = true ->
  let incremented := instance (recordPower start (Resolved power) sampled this) in
  stateOfCharge (getSettings later incremented)
  = Qmin (stateOfCharge (getSettings start this) + (5 # 4)) 100
  /\ (stateOfCharge (getSettings later incremented) <= 100)%Q
  /\ ((0 <= stateOfCharge (getSettings start this))%Q ->
      (0 <= stateOfCharge (getSettings later incremented))%Q).
Proof.
  intros Hpow Hsampled Hlater incremented.
  assert (Hinc : stateOfCharge (getSettings later incremented)
                 = Qmin (stateOfCharge (getSettings start this) + (5 # 4)) 100).
  { rewrite getSettings_overlay.
    - unfold incremented. now rewrite recordPower_overlay.
    - unfold incremented, overrideSettingsValid.
      rewrite recordPower_overlay by assumption. exact Hlater. }
  split; [exact Hinc|]. rewrite Hinc.
  split; [apply Q.le_min_r|].
  intros H0. apply Q.min_glb; [|discriminate].
  apply Qle_trans with (stateOfCharge (getSettings start this)); [exact H0|].
  rewrite <- (Qplus_0_r (stateOfCharge (getSettings start this))) at 1.
  apply Qplus_le_r. discriminate.
Qed.

(** C7.  An explicit request declares the battery at 150 percent.
    [updateOverrideSettings] stores the value as it is, and the effective
    [stateOfCharge] is 150, outside 0 to 100; [requiredTime] is then -39, the
    window of the twelve Monday intervals is empty and [shouldCharge] throws.
    The other writer of [stateOfCharge], the implicit increment, caps what
    it writes at 100, also from this instance. *)
Theorem unclamped_override_of_150 :
  let requested :=
    instance (updateOverrideSettings mondayMorning overchargedOverlay true
                newChargeMonitor) in
  let incremented :=
    instance (recordPower (recording chargingTurn) (Resolved 1500%Q)
                (sampled chargingTurn) requested) in
  stateOfCharge (getSettings (sampled chargingTurn) requested) = 150%Q
  /\ ~ (0 <= stateOfCharge (getSettings (sampled chargingTurn) requested) <= 100)%Q
  /\ requiredTimeOf (getSettings mondayMorning requested) = -39
  /\ cheapestWindow mondayMorning requested twelveIntervals = []
  /\ outcome (shouldCharge mondayMorning (Resolved twelveIntervals) requested)
     = Rejected TypeErrorUndefinedPerKwh
  /\ (stateOfCharge (getSettings (sampled chargingTurn) incremented) == 100)%Q.
Proof.
  cbv zeta.
  split; [vm_compute; reflexivity|].
  split.
  { intros [_ H]. apply Qle_bool_iff in H. vm_compute in H. discriminate. }
  split; [vm_compute; reflexivity|].
  split; [vm_compute; reflexivity|].
  split; [vm_compute; reflexivity|].
  vm_compute. reflexivity.
Qed.

(** ** C8 and C9: errors of a turn *)

(** A window shorter than required, but not empty: the note is logged and
    the call goes on to its decision. *)
Lemma shouldCharge_short_window now this prices top current :
  lastElement (cheapestWindow now this prices) = Some top ->
  find isCurrentInterval prices = Some current ->
  Z.of_nat (List.length (cheapestWindow now this prices))
  < requiredTimeOf (getSettings now this) ->
  trace (shouldCharge now (Resolved prices) this) = [LogInfo NotEnoughPrices]
  /\ exists decision,
       outcome (shouldCharge now (Resolved prices) this) = Resolved decision.
Proof.
  intros Htop Hcur Hshort.
  split.
  - apply Z.ltb_lt in Hshort. revert Htop Hshort.
    unfold cheapestWindow, shouldCharge, bind, await, get, when.
    intros -> ->. rewrite Hcur. reflexivity.
  - destruct (shouldCharge_resolved now this prices top current Htop Hcur) as [H _].
    eauto.
Qed.

(** No error leaves a turn of the loop: what the [try] block throws is
    logged, and the turn ends after a sleep of 60 seconds. *)
Lemma monitorCycle_resolves c this :
  outcome (monitorCycle c this) = Resolved tt.
Proof.
  unfold monitorCycle, tryCatch, outcome.
  destruct (monitorTry c this) as [[[[]|e] this1] tr1]; reflexivity.
Qed.

Lemma monitorCycle_backoff c this e :
  outcome (monitorTry c this) = Rejected e ->
  instance (monitorCycle c this) = instance (monitorTry c this)
  /\ trace (monitorCycle c this)
     = trace (monitorTry c this)
       ++ [LogError e; LogInfo RetryAfterOneMinute; Sleep 60000].
Proof.
  unfold monitorCycle, tryCatch, outcome, instance, trace.
  destruct (monitorTry c this) as [[[[]|e'] this1] tr1]; simpl; [discriminate|].
  intros [= ->]. split; reflexivity.
Qed.

(** The loop goes through every turn it is given inputs for. *)
Lemma monitor_resolves cycles this :
  outcome (monitor cycles this) = Resolved tt.
Proof.
  revert this. induction cycles as [|c rest IH]; intros this; [reflexivity|].
  simpl. unfold bind.
  pose proof (monitorCycle_resolves c this) as Hc. unfold outcome in Hc.
  destruct (monitorCycle c this) as [[r this1] tr1]. simpl in Hc. subst r.
  specialize (IH this1). unfold outcome in IH.
  destruct (monitor rest this1) as [[r this2] tr2]. simpl in IH. now subst r.
Qed.

(** A failure of the price source is the failure of the turn's [try]
    block. *)
Lemma monitorTry_price_source_failure c this e :
  upcomingRates c = Rejected e ->
  monitorTry c this = (Rejected e, this, []).
Proof. unfold monitorTry, bind. intros ->. reflexivity. Qed.

(** C8.  The batch holds a current interval, but no interval of it ends by
    the cutoff: [shouldCharge] throws all the same, a [TypeError] from
    reading the last element of the empty window.  The loop logs it and
    backs off for 60 seconds. *)
Theorem throws_although_current_interval_present :
  find isCurrentInterval lateBatch = Some (interval 15 14 CurrentInterval)
  /\ outcome (shouldCharge mondayMorning (Resolved lateBatch) newChargeMonitor)
     = Rejected TypeErrorUndefinedPerKwh
  /\ monitorCycle lateTurn newChargeMonitor
     = (Resolved tt, newChargeMonitor,
        [LogError TypeErrorUndefinedPerKwh; LogInfo RetryAfterOneMinute; Sleep 60000]).
Proof. vm_compute. repeat split; reflexivity. Qed.

(** C9.  Thirteen intervals are required and none ends by the cutoff: the
    call throws before the informational note is logged and before any
    ceiling, decision or snapshot is made. *)
Theorem empty_window_throws_before_note :
  requiredTimeOf (getSettings mondayMorning newChargeMonitor) = 13
  /\ filter (fun price =>
               endTimestamp price <=? getUpcomingCutoff mondayMorning newChargeMonitor)
            lateBatch = []
  /\ priceMaxOf mondayMorning newChargeMonitor lateBatch = None
  /\ shouldCharge mondayMorning (Resolved lateBatch) newChargeMonitor
     = (Rejected TypeErrorUndefinedPerKwh, newChargeMonitor, []).
Proof. vm_compute. repeat split; reflexivity. Qed.

(** * Beyond the claims *)

(** ** Scheduling: [calculateTimeToNextMinute] *)

Lemma getMinutes_range now : 0 <= getMinutes now < 60.
Proof.
  unfold getMinutes, msPerHour, msPerMinute.
  pose proof (Z.mod_pos_bound (localMs now) 3600000 ltac:(lia)) as H.
  split.
  - apply Z.div_pos; lia.
  - apply Z.div_lt_upper_bound; lia.
Qed.

Lemma calculateTimeToNextMinute_range now :
  1 <= calculateTimeToNextMinute now <= 31.
Proof.
  unfold calculateTimeToNextMinute.
  pose proof (getMinutes_range now).
  destruct (Z.ltb_spec 30 (getMinutes now)); lia.
Qed.

(** X1.  The wait is between 1 and 31 minutes, and a sleep of that length
    ends in minute 31 of the hour when it starts in minutes 0 to 30, and in
    minute 1 of the next hour when it starts in minutes 31 to 59. *)
Theorem calculateTimeToNextMinute_wakes_after_boundary (now : Clock) :
  let next := calculateTimeToNextMinute now in
  1 <= next <= 31
  /\ getMinutes (minutesLater now next) = (if 30 <? getMinutes now then 1 else 31).
Proof.
  intros next. split; [apply calculateTimeToNextMinute_range|].
  subst next. unfold calculateTimeToNextMinute, minutesLater, getMinutes, localMs.
  cbn [nowMs utcOffsetMs]. unfold msPerHour, msPerMinute.
  set (L := nowMs now + utcOffsetMs now).
  replace (nowMs now + _ + utcOffsetMs now)
    with (L + ((if 30 <? L mod 3600000 / 60000 then 60 else 30)
               - L mod 3600000 / 60000 + 1) * 60000) by (unfold L; lia).
  destruct (Z.ltb_spec 30 (L mod 3600000 / 60000)) as [H|H];
    Z.div_mod_to_equations; lia.
Qed.

(** ** The cutoff: [getUpcomingCutoff] *)

Lemma toInteger_whole q h : (q == inject_Z h)%Q -> toInteger q = h.
Proof.
  unfold Qeq, toInteger. simpl. intros H.
  rewrite Z.mul_1_r in H. rewrite H. apply Z.quot_mul. discriminate.
Qed.

Lemma Qle_bool_whole q h z :
  (q == inject_Z h)%Q -> Qle_bool q (inject_Z z) = (h <=? z).
Proof.
  intros H.
  destruct (Z.leb_spec h z) as [Hle|Hgt].
  - apply Qle_bool_iff. rewrite H. now rewrite <- Zle_Qle.
  - destruct (Qle_bool q (inject_Z z)) eqn:E; [|reflexivity].
    apply Qle_bool_iff in E. rewrite H in E. rewrite <- Zle_Qle in E. lia.
Qed.

(** X2.  When the effective cutoff hour is a whole hour [h] of the day, the
    cutoff is the next time the local clock reads [h]:00: it lies after now,
    at most 24 hours ahead (exactly 24 hours when now is [h]:00 sharp). *)
Theorem getUpcomingCutoff_next_occurrence
  (now : Clock) (this : ChargeMonitor) (h : Z) :
  (cutoffHour (getSettings now this) == inject_Z h)%Q ->
  0 <= h <= 23 ->
  let cutoff := {| nowMs := getUpcomingCutoff now this; utcOffsetMs := utcOffsetMs now |} in
  nowMs now < nowMs cutoff <= nowMs now + msPerDay
  /\ getHours cutoff = h
  /\ localMs cutoff mod msPerHour = 0
  /\ (localDay cutoff = if h <=? getHours now then localDay now + 1 else localDay now).
Proof.
  intros Hq Hh cutoff. subst cutoff.
  unfold getUpcomingCutoff, atHour. cbn [nowMs utcOffsetMs].
  rewrite (toInteger_whole _ _ Hq), (Qle_bool_whole _ _ _ Hq).
  unfold getHours, localDay, localMs. cbn [nowMs utcOffsetMs].
  unfold msPerDay, msPerHour.
  set (L := nowMs now + utcOffsetMs now).
  replace (nowMs now) with (L - utcOffsetMs now) by (unfold L; lia).
  set (days := if h <=? L mod 86400000 / 3600000 then 1 else 0).
  replace ((L / 86400000 + days) * 86400000 + h * 3600000
           - utcOffsetMs now + utcOffsetMs now)
    with ((L / 86400000 + days) * 86400000 + h * 3600000) by lia.
  assert (Hdays : (if h <=? L mod 86400000 / 3600000
                   then L / 86400000 + 1 else L / 86400000)
                  = L / 86400000 + days).
  { unfold days. destruct (h <=? _); lia. }
  rewrite Hdays.
  assert (Hd : 0 <= days <= 1) by (unfold days; destruct (h <=? _); lia).
  assert (Hcase : (days = 1 /\ h <= L mod 86400000 / 3600000)
                  \/ (days = 0 /\ L mod 86400000 / 3600000 < h)).
  { unfold days. destruct (Z.leb_spec h (L mod 86400000 / 3600000)); lia. }
  clearbody days. clear Hdays Hq.
  repeat split; Z.div_mod_to_equations; lia.
Qed.

Lemma getUpcomingCutoff_next_occurrence_witness :
  (cutoffHour (getSettings mondayMorning newChargeMonitor) == inject_Z 15)%Q
  /\ 0 <= 15 <= 23
  /\ nowMs mondayMorning < getUpcomingCutoff mondayMorning newChargeMonitor
     <= nowMs mondayMorning + msPerDay.
Proof.
  split; [vm_compute; reflexivity|].
  split; [lia|].
  destruct (getUpcomingCutoff_next_occurrence mondayMorning newChargeMonitor 15)
    as (H & _).
  - vm_compute; reflexivity.
  - lia.
  - exact H.
Defined.

(** ** The override: [updateOverrideSettings], [overrideSettingsValid],
       [getSettings] *)

Lemma updateOverrideSettings_instance now values updateExpiry this :
  instance (updateOverrideSettings now values updateExpiry this)
  = {| settings := settings this;
       lastUpdate := lastUpdate this;
       overrideSettings :=
         {| overlay := values;
            expireAt := if updateExpiry then nowMs now + 24 * 60 * 60 * 1000
                        else expireAt (overrideSettings this) |} |}.
Proof. reflexivity. Qed.

Lemma shouldCharge_keeps_override now rates this :
  overrideSettings (instance (shouldCharge now rates this)) = overrideSettings this.
Proof.
  destruct rates as [prices|e]; [|reflexivity].
  unfold shouldCharge, bind, await, get, when.
  destruct (lastElement _); [|reflexivity].
  destruct (Z.of_nat _ <? _); destruct (find isCurrentInterval prices); reflexivity.
Qed.

Lemma performAll_leaves_override calls this :
  Forall leavesOverride calls ->
  overrideSettings (performAll calls this) = overrideSettings this
  /\ settings (performAll calls this) = settings this.
Proof.
  intros H. revert this.
  induction H as [|c rest Hc _ IH]; intros this; [split; reflexivity|].
  unfold performAll in *. cbn [fold_left].
  destruct (IH (perform c this)) as [Ho Hs]. rewrite Ho, Hs.
  destruct c; try destruct Hc; unfold perform.
  - split; reflexivity.
  - split; [apply shouldCharge_keeps_override|apply keeps_shouldCharge].
Qed.

(** X3.  An explicit request made at [now] stays in force, through any
    evaluations and snapshot merges that follow it, at every reading of the
    clock up to and including 24 hours later: the effective settings are
    then the baseline with each requested key in place of the baseline one,
    and no calendar rule applies.  (A later request or a charging sample
    writes the overlay anew.) *)
Theorem override_in_force_for_24_hours
  (now later : Clock) (values : PartialSettings) (this : ChargeMonitor)
  (calls : list Call) :
  nowMs later <= nowMs now + 86400000 ->
  Forall leavesOverride calls ->
  let that :=
    performAll calls (instance (updateOverrideSettings now values true this)) in
  overrideSettingsValid later that = true
  /\ getSettings later that = spreadSettings (settings this) values.
Proof.
  intros H Hcalls that.
  destruct (performAll_leaves_override calls
              (instance (updateOverrideSettings now values true this)) Hcalls)
    as [Ho Hs].
  fold that in Ho, Hs. rewrite updateOverrideSettings_instance in Ho, Hs.
  cbn [overrideSettings settings] in Ho, Hs.
  assert (Hv : overrideSettingsValid later that = true).
  { unfold overrideSettingsValid. rewrite Ho. cbn [expireAt].
    apply Z.leb_le. lia. }
  split; [exact Hv|].
  rewrite getSettings_overlay by exact Hv. rewrite Ho, Hs. reflexivity.
Qed.

Lemma override_in_force_for_24_hours_witness :
  nowMs (clockAt 1 8 0) <= nowMs mondayMorning + 86400000
  /\ Forall leavesOverride
       [CallShouldCharge mondayMorning (Resolved twelveIntervals);
        CallSetLastUpdate emptyUpdate]
  /\ getSettings (clockAt 1 8 0)
       (performAll
          [CallShouldCharge mondayMorning (Resolved twelveIntervals);
           CallSetLastUpdate emptyUpdate]
          (instance (updateOverrideSettings mondayMorning requestedOverlay true
                       newChargeMonitor)))
     = spreadSettings (settings newChargeMonitor) requestedOverlay.
Proof.
  assert (Hcalls : Forall leavesOverride
                     [CallShouldCharge mondayMorning (Resolved twelveIntervals);
                      CallSetLastUpdate emptyUpdate]).
  { repeat constructor. }
  split; [vm_compute; discriminate|].
  split; [exact Hcalls|].
  apply (override_in_force_for_24_hours mondayMorning (clockAt 1 8 0)
           requestedOverlay newChargeMonitor).
  - vm_compute; discriminate.
  - exact Hcalls.
Defined.

(** X4.  More than 24 hours after an explicit request, nothing of it
    shows: the effective settings are the baseline ones with the cutoff hour
    of the calendar rule, whatever was requested. *)
Theorem override_expires_after_24_hours
  (now later : Clock) (values : PartialSettings) (this : ChargeMonitor) :
  nowMs now + 86400000 < nowMs later ->
  let that := instance (updateOverrideSettings now values true this) in
  overrideSettingsValid later that = false
  /\ getSettings later that
     = {| cutoffHour := calendarCutoff 15 (getDay later) (getHours later);
          maxPrice := maxPrice (settings this);
          stateOfCharge := stateOfCharge (settings this);
          preferredPrice := preferredPrice (settings this) |}.
Proof.
  intros H that.
  assert (Hv : overrideSettingsValid later that = false).
  { unfold that. rewrite updateOverrideSettings_instance.
    unfold overrideSettingsValid. cbn [overrideSettings expireAt].
    apply Z.leb_gt. lia. }
  split; [exact Hv|].
  unfold getSettings. rewrite Hv.
  rewrite (calendar_test _ _ (getDay_range later) (getHours_range later)).
  reflexivity.
Qed.

Lemma override_expires_after_24_hours_witness :
  nowMs mondayMorning + 86400000 < nowMs (clockAt 1 8 1)
  /\ maxPrice
       (getSettings (clockAt 1 8 1)
          (instance (updateOverrideSettings mondayMorning requestedOverlay true
                       newChargeMonitor)))
     = 35%Q.
Proof.
  split; [reflexivity|].
  destruct (override_expires_after_24_hours mondayMorning (clockAt 1 8 1)
              requestedOverlay newChargeMonitor) as [_ H].
  - reflexivity.
  - rewrite H. reflexivity.
Defined.

(** X5.  A request that keeps the expiry ([updateExpiry = false]) changes
    neither the expiry nor the validity of the override; made on an expired
    override it leaves every effective setting as it was. *)
Theorem keeping_expiry_never_revives
  (now later : Clock) (values : PartialSettings) (this : ChargeMonitor) :
  overrideSettingsValid later this = false ->
  let that := instance (updateOverrideSettings now values false this) in
  expireAt (overrideSettings that) = expireAt (overrideSettings this)
  /\ overrideSettingsValid later that = false
  /\ getSettings later that = getSettings later this.
Proof.
  intros H that.
  assert (Hv : overrideSettingsValid later that = false) by exact H.
  split; [reflexivity|]. split; [exact Hv|].
  unfold getSettings. rewrite Hv, H. reflexivity.
Qed.

Lemma keeping_expiry_never_revives_witness :
  overrideSettingsValid mondayMorning newChargeMonitor = false
  /\ getSettings mondayMorning
       (instance (updateOverrideSettings mondayMorning requestedOverlay false
                    newChargeMonitor))
     = getSettings mondayMorning newChargeMonitor.
Proof.
  split; [reflexivity|].
  apply (keeping_expiry_never_revives mondayMorning mondayMorning
           requestedOverlay newChargeMonitor).
  reflexivity.
Defined.

(** ** The decision: [shouldCharge] *)

Section Decision.

Local Open Scope Q_scope.

Variables (now : Clock) (this : ChargeMonitor).

(** X6.  The effective [maxPrice] is a hard ceiling: a call that returns
    [true] found a current interval priced strictly below it. *)
Theorem never_charges_at_or_above_maxPrice (rates : Outcome (list Price)) :
  outcome (shouldCharge now rates this) = Resolved true ->
  exists prices current,
    rates = Resolved prices
    /\ find isCurrentInterval prices = Some current
    /\ perKwh current < maxPrice (getSettings now this).
Proof.
  intros H.
  destruct (shouldCharge_returns_inv _ _ _ _ H)
    as (prices & top & current & -> & Htop & Hcur).
  exists prices, current. split; [reflexivity|]. split; [exact Hcur|].
  destruct (shouldCharge_resolved now this prices top current Htop Hcur) as [Hout _].
  rewrite Hout in H. injection H as H. apply Qltb_lt in H.
  eapply Qlt_le_trans; [exact H|apply Q.le_min_r].
Qed.

(** X7.  When the current interval is itself in the cheapest window and
    priced below the effective [maxPrice], the call returns [true]. *)
Theorem charges_when_current_is_in_window (prices : list Price) (current : Price) :
  find isCurrentInterval prices = Some current ->
  In current (cheapestWindow now this prices) ->
  perKwh current < maxPrice (getSettings now this) ->
  outcome (shouldCharge now (Resolved prices) this) = Resolved true.
Proof.
  intros Hcur Hin Hmax.
  destruct (lastElement_nonempty (cheapestWindow now this prices)) as [top Htop].
  { intros E. rewrite E in Hin. exact Hin. }
  destruct (lastElement_sorted_max _ _ (cheapestWindow_sorted now this prices) Htop)
    as [_ Hle].
  destruct (shouldCharge_resolved now this prices top current Htop Hcur) as [Hout _].
  rewrite Hout. f_equal. apply Qltb_lt. apply Q.min_glb_lt; [|exact Hmax].
  apply Qle_lt_trans with (perKwh top); [now apply Hle|].
  rewrite <- (Qplus_0_r (perKwh top)) at 1. apply Qplus_lt_r. reflexivity.
Qed.

(** X8.  With an effective state of charge of 100 or less, one interval
    that ends by the cutoff and a current interval in the batch, the call
    returns a decision: the window is not empty and nothing throws. *)
Theorem returns_when_an_interval_is_eligible
  (prices : list Price) (eligible current : Price) :
  stateOfCharge (getSettings now this) <= 100 ->
  In eligible prices ->
  (endTimestamp eligible <= getUpcomingCutoff now this)%Z ->
  find isCurrentInterval prices = Some current ->
  cheapestWindow now this prices <> []
  /\ exists decision,
       outcome (shouldCharge now (Resolved prices) this) = Resolved decision.
Proof.
  intros Hsoc Hin Hend Hcur.
  assert (Hne : cheapestWindow now this prices <> []).
  { pose proof (requiredTimeOf_positive _ Hsoc) as Hreq.
    unfold cheapestWindow. rewrite slice0_count by lia.
    assert (Hv : In eligible (validPricesOf (getUpcomingCutoff now this) prices))
      by (apply validPricesOf_In; now split).
    destruct (validPricesOf (getUpcomingCutoff now this) prices) as [|p rest];
      [destruct Hv|].
    destruct (Z.to_nat (requiredTimeOf (getSettings now this))) eqn:E; [lia|].
    discriminate. }
  split; [exact Hne|].
  destruct (lastElement_nonempty _ Hne) as [top Htop].
  destruct (shouldCharge_resolved now this prices top current Htop Hcur) as [Hout _].
  eauto.
Qed.

(** X9.  The size of the window: the lesser of [requiredTime] and the
    number of intervals of the batch that end by the cutoff; for a negative
    [requiredTime] that number less its absolute value, and none when that
    is negative. *)
Theorem cheapestWindow_size (prices : list Price) :
  let required := requiredTimeOf (getSettings now this) in
  let eligible :=
    Z.of_nat (List.length
                (filter (fun price => endTimestamp price <=? getUpcomingCutoff now this)%Z
                        prices)) in
  Z.of_nat (List.length (cheapestWindow now this prices))
  = (if required <? 0 then Z.max (eligible + required) 0
     else Z.min required eligible)%Z.
Proof.
  intros required eligible.
  unfold cheapestWindow, slice0. fold required.
  assert (Hlen : List.length (validPricesOf (getUpcomingCutoff now this) prices)
                 = List.length
                     (filter (fun price =>
                                endTimestamp price <=? getUpcomingCutoff now this)%Z
                             prices)).
  { unfold validPricesOf. apply Permutation_length, sortByPerKwh_perm. }
  rewrite length_firstn, Hlen. clear Hlen. subst eligible.
  set (n := List.length _).
  destruct (Z.ltb_spec required 0); lia.
Qed.

End Decision.

Lemma never_charges_at_or_above_maxPrice_witness :
  outcome (shouldCharge mondayMorning (Resolved twelveIntervals) newChargeMonitor)
  = Resolved true
  /\ exists prices current,
       Resolved twelveIntervals = Resolved prices
       /\ find isCurrentInterval prices = Some current
       /\ (perKwh current < maxPrice (getSettings mondayMorning newChargeMonitor))%Q.
Proof.
  split; [vm_compute; reflexivity|].
  apply (never_charges_at_or_above_maxPrice mondayMorning newChargeMonitor
           (Resolved twelveIntervals)).
  vm_compute; reflexivity.
Defined.

Lemma charges_when_current_is_in_window_witness :
  find isCurrentInterval twelveIntervals = Some currentAt14
  /\ In currentAt14 (cheapestWindow mondayMorning newChargeMonitor twelveIntervals)
  /\ (perKwh currentAt14 < maxPrice (getSettings mondayMorning newChargeMonitor))%Q
  /\ outcome (shouldCharge mondayMorning (Resolved twelveIntervals) newChargeMonitor)
     = Resolved true.
Proof.
  assert (Hin : In currentAt14
                  (cheapestWindow mondayMorning newChargeMonitor twelveIntervals)).
  { vm_compute. right. right. left. reflexivity. }
  split; [reflexivity|].
  split; [exact Hin|].
  split; [reflexivity|].
  apply (charges_when_current_is_in_window mondayMorning newChargeMonitor
           twelveIntervals currentAt14).
  - reflexivity.
  - exact Hin.
  - reflexivity.
Defined.

Lemma returns_when_an_interval_is_eligible_witness :
  (stateOfCharge (getSettings mondayMorning newChargeMonitor) <= 100)%Q
  /\ In currentAt14 twelveIntervals
  /\ endTimestamp currentAt14 <= getUpcomingCutoff mondayMorning newChargeMonitor
  /\ find isCurrentInterval twelveIntervals = Some currentAt14
  /\ cheapestWindow mondayMorning newChargeMonitor twelveIntervals <> [].
Proof.
  split; [vm_compute; discriminate|].
  split; [left; reflexivity|].
  split; [vm_compute; discriminate|].
  split; [reflexivity|].
  destruct (returns_when_an_interval_is_eligible mondayMorning newChargeMonitor
              twelveIntervals currentAt14 currentAt14) as [H _].
  - vm_compute; discriminate.
  - left; reflexivity.
  - vm_compute; discriminate.
  - reflexivity.
  - exact H.
Defined.

(** ** The number of intervals required *)

Lemma requiredTimeOf_antitone s1 s2 :
  (stateOfCharge s1 <= stateOfCharge s2)%Q ->
  requiredTimeOf s2 <= requiredTimeOf s1.
Proof.
  intros H. unfold requiredTimeOf. apply Qceiling_resp_le.
  unfold Qdiv. apply Qmult_le_compat_r; [|discriminate].
  apply Qplus_le_l. apply Qplus_le_r. now apply Qopp_le_compat.
Qed.

(** X10.  The fuller the battery the fewer intervals are required: between
    0 and 100 percent the count falls from 81 to 1 and never reaches 0, so a
    battery declared full still has a window of one interval. *)
Theorem requiredTimeOf_between_1_and_81 (s1 s2 : ChargeMonitorSettings) :
  (0 <= stateOfCharge s1)%Q ->
  (stateOfCharge s1 <= stateOfCharge s2)%Q ->
  (stateOfCharge s2 <= 100)%Q ->
  1 <= requiredTimeOf s2 <= requiredTimeOf s1 /\ requiredTimeOf s1 <= 81.
Proof.
  intros H0 H12 H100.
  split; [split|].
  - now apply requiredTimeOf_positive.
  - now apply requiredTimeOf_antitone.
  - pose proof (requiredTimeOf_antitone
                  {| cutoffHour := 0; maxPrice := 0; stateOfCharge := 0;
                     preferredPrice := 0 |} s1 H0) as H.
    assert (E : requiredTimeOf
                  {| cutoffHour := 0; maxPrice := 0; stateOfCharge := 0;
                     preferredPrice := 0 |} = 81) by reflexivity.
    lia.
Qed.

Lemma requiredTimeOf_between_1_and_81_witness :
  (0 <= stateOfCharge initialSettings)%Q
  /\ (stateOfCharge initialSettings <= 100)%Q
  /\ 1 <= requiredTimeOf initialSettings <= 81.
Proof.
  split; [discriminate|]. split; [discriminate|].
  destruct (requiredTimeOf_between_1_and_81 initialSettings initialSettings)
    as [[H1 _] H2].
  - discriminate.
  - apply Qle_refl.
  - discriminate.
  - split; assumption.
Defined.

(** ** The predictions recorded by [shouldCharge] *)

Section Predictions.

Local Open Scope Q_scope.

Variables (now : Clock) (this : ChargeMonitor) (prices : list Price).

(** What a call that returns records as its predictions. *)
Lemma shouldCharge_predictions top current :
  lastElement (cheapestWindow now this prices) = Some top ->
  find isCurrentInterval prices = Some current ->
  let priceMax := Qmin (perKwh top + 1) (maxPrice (getSettings now this)) in
  let r := shouldCharge now (Resolved prices) this in
  lu_predictedAveragePrice (lastUpdate (instance r))
  = Present (averagePerKwh (predictedOnStateOf now this prices priceMax))
  /\ lu_predictedStateOfCharge (lastUpdate (instance r))
     = Present (Qmin (inject_Z (Z.of_nat (List.length
                                            (predictedOnStateOf now this prices priceMax)))
                      * (5 # 4)
                      + stateOfCharge (getSettings now this)) 100).
Proof.
  unfold cheapestWindow, shouldCharge, bind, await, get, when. intros H1 H2.
  rewrite H1, H2.
  destruct (Z.of_nat _ <? _)%Z;
    unfold setLastUpdate, bind, get, put, emit, ret, outcome, instance,
      predictedOnStateOf;
    cbn [fst snd lu_chargingTimes lastUpdate lu_predictedAveragePrice
         lu_predictedStateOfCharge spreadUpdate spread];
    split; reflexivity.
Qed.

(** X11.  The predictions of a call that returns: the predicted state of
    charge is at most 100, and the predicted average price is not a number
    exactly when no interval that ends by the cutoff is priced at or below
    the recorded [priceMax]. *)
Theorem predictions_within_bounds (decision : bool) :
  outcome (shouldCharge now (Resolved prices) this) = Resolved decision ->
  exists priceMax predictedStateOfCharge predictedAveragePrice,
    lu_priceMax (lastUpdate (instance (shouldCharge now (Resolved prices) this)))
    = Present priceMax
    /\ lu_predictedStateOfCharge
         (lastUpdate (instance (shouldCharge now (Resolved prices) this)))
       = Present predictedStateOfCharge
    /\ lu_predictedAveragePrice
         (lastUpdate (instance (shouldCharge now (Resolved prices) this)))
       = Present predictedAveragePrice
    /\ predictedStateOfCharge <= 100
    /\ (predictedAveragePrice = None
        <-> forall p, In p prices ->
                      (endTimestamp p <= getUpcomingCutoff now this)%Z ->
                      priceMax < perKwh p).
Proof.
  intros Hd.
  destruct (shouldCharge_returns_inv _ _ _ _ Hd)
    as (prices' & top & current & Heq & Htop & Hcur).
  injection Heq as <-.
  destruct (shouldCharge_resolved now this prices top current Htop Hcur)
    as (_ & Hmax & _).
  destruct (shouldCharge_predictions top current Htop Hcur) as [Havg Hsoc].
  set (priceMax := Qmin (perKwh top + 1) (maxPrice (getSettings now this))) in *.
  exists priceMax. eexists. eexists.
  split; [exact Hmax|]. split; [exact Hsoc|]. split; [exact Havg|].
  split; [apply Q.le_min_r|].
  assert (Hon : forall p, In p (predictedOnStateOf now this prices priceMax)
                          <-> (In p prices
                               /\ (endTimestamp p <= getUpcomingCutoff now this)%Z)
                              /\ perKwh p <= priceMax).
  { intros p. unfold predictedOnStateOf. rewrite filter_In, validPricesOf_In.
    now rewrite Qle_bool_iff. }
  split.
  - intros Hnone p Hin Hend. apply Qnot_le_lt. intros Hle.
    assert (Hp : In p (predictedOnStateOf now this prices priceMax))
      by (apply Hon; tauto).
    destruct (predictedOnStateOf now this prices priceMax); [destruct Hp|discriminate].
  - intros Hall.
    destruct (predictedOnStateOf now this prices priceMax) as [|p rest] eqn:E;
      [reflexivity|].
    assert (Hp : In p (p :: rest)) by now left.
    apply Hon in Hp. destruct Hp as [[Hin Hend] Hle].
    exfalso. apply (Qlt_not_le _ _ (Hall p Hin Hend)). exact Hle.
Qed.

End Predictions.

Lemma predictions_within_bounds_witness :
  outcome (shouldCharge mondayMorning (Resolved twelveIntervals) newChargeMonitor)
  = Resolved true
  /\ exists priceMax predictedStateOfCharge predictedAveragePrice,
       lu_priceMax
         (lastUpdate
            (instance (shouldCharge mondayMorning (Resolved twelveIntervals)
                         newChargeMonitor)))
       = Present priceMax
       /\ lu_predictedStateOfCharge
            (lastUpdate
               (instance (shouldCharge mondayMorning (Resolved twelveIntervals)
                            newChargeMonitor)))
          = Present predictedStateOfCharge
       /\ lu_predictedAveragePrice
            (lastUpdate
               (instance (shouldCharge mondayMorning (Resolved twelveIntervals)
                            newChargeMonitor)))
          = Present predictedAveragePrice
       /\ (predictedStateOfCharge <= 100)%Q
       /\ (predictedAveragePrice = None
           <-> forall p, In p twelveIntervals ->
                         endTimestamp p <= getUpcomingCutoff mondayMorning newChargeMonitor ->
                         (priceMax < perKwh p)%Q).
Proof.
  split; [vm_compute; reflexivity|].
  apply (predictions_within_bounds mondayMorning newChargeMonitor twelveIntervals true).
  vm_compute; reflexivity.
Defined.

(** ** What the methods leave alone *)

Section Keeps.

Context {A B X : Type} (f : ChargeMonitor -> X).

Lemma keeps_f_bind (m : M A) (k : A -> M B) :
  keeps f m -> (forall a, keeps f (k a)) -> keeps f (bind m k).
Proof.
  intros Hm Hk this. unfold bind, instance.
  specialize (Hm this). unfold instance in Hm.
  destruct (m this) as [[[a|e] this1] tr1]; simpl in *; [|exact Hm].
  specialize (Hk a this1). unfold instance in Hk.
  destruct (k a this1) as [[r this2] tr2]; simpl in *. congruence.
Qed.

Lemma keeps_f_tryCatch (m : M A) (handler : Error -> M A) :
  keeps f m -> (forall e, keeps f (handler e)) -> keeps f (tryCatch m handler).
Proof.
  intros Hm Hh this. unfold tryCatch, instance.
  specialize (Hm this). unfold instance in Hm.
  destruct (m this) as [[[a|e] this1] tr1]; simpl in *; [exact Hm|].
  specialize (Hh e this1). unfold instance in Hh.
  destruct (handler e this1) as [[r this2] tr2]; simpl in *. congruence.
Qed.

Lemma keeps_f_pure (m : M A) : (forall this, instance (m this) = this) -> keeps f m.
Proof. intros H this. now rewrite H. Qed.

End Keeps.

Lemma keeps_expiry_setLastUpdate values : keeps expiry (setLastUpdate values).
Proof. intros this. reflexivity. Qed.

Lemma keeps_expiry_updateOverrideSettings now values :
  keeps expiry (updateOverrideSettings now values false).
Proof. intros this. reflexivity. Qed.

Ltac keeps_f :=
  repeat first
    [ apply keeps_expiry_setLastUpdate
    | apply keeps_expiry_updateOverrideSettings
    | apply keeps_f_bind; [|intros ?]
    | match goal with
      | |- keeps _ (match ?x with _ => _ end) => destruct x
      | |- keeps _ (when ?b _) => destruct b; unfold when
      end
    | apply keeps_f_pure; intros ?; reflexivity
    | intros ?; reflexivity ].

Lemma keeps_expiry_shouldCharge now rates : keeps expiry (shouldCharge now rates).
Proof. unfold shouldCharge. keeps_f. Qed.

Lemma keeps_expiry_recordPower start plug sampled :
  keeps expiry (recordPower start plug sampled).
Proof. unfold recordPower. keeps_f. Qed.

Lemma keeps_expiry_monitorCycle c : keeps expiry (monitorCycle c).
Proof.
  unfold monitorCycle. apply keeps_f_tryCatch.
  - unfold monitorTry, setMerossPlug, sleep.
    apply keeps_f_bind; [apply keeps_expiry_shouldCharge|]. intros charge.
    apply keeps_f_bind; [|intros ?; keeps_f].
    destruct charge.
    + do 3 (apply keeps_f_bind; [keeps_f|intros ?]).
      apply keeps_f_bind; [apply keeps_expiry_recordPower|intros ?]. keeps_f.
    + keeps_f.
  - intros e. unfold sleep. keeps_f.
Qed.

(** X12.  The loop never moves the expiry of the override: after any
    number of turns the override expires when it did, so it is valid at a
    given time exactly if it was before the loop ran. *)
Theorem monitor_keeps_expiry (cycles : list Cycle) (this : ChargeMonitor) :
  expireAt (overrideSettings (instance (monitor cycles this)))
  = expireAt (overrideSettings this)
  /\ forall t, overrideSettingsValid t (instance (monitor cycles this))
               = overrideSettingsValid t this.
Proof.
  assert (H : keeps expiry (monitor cycles)).
  { induction cycles as [|c rest IH]; simpl.
    - intros ?; reflexivity.
    - apply keeps_f_bind; [apply keeps_expiry_monitorCycle|intros ?; exact IH]. }
  specialize (H this). unfold expiry in H.
  split; [exact H|].
  intros t. unfold overrideSettingsValid. now rewrite H.
Qed.

(** X13.  No call on the class assigns the baseline settings; so whenever
    no override is valid the decision assumes a battery at 85 percent and
    requires 13 intervals, whatever has been charged. *)
Theorem baseline_settings_never_change
  (c : Call) (this : ChargeMonitor) (now : Clock) :
  reachable this ->
  overrideSettingsValid now (perform c this) = false ->
  settings (perform c this) = initialSettings
  /\ stateOfCharge (getSettings now (perform c this)) = 85%Q
  /\ maxPrice (getSettings now (perform c this)) = 35%Q
  /\ requiredTimeOf (getSettings now (perform c this)) = 13.
Proof.
  intros Hr Hv.
  assert (Hs : settings (perform c this) = initialSettings).
  { apply reachable_settings. now constructor. }
  split; [exact Hs|].
  unfold getSettings, requiredTimeOf. rewrite Hv. cbn [stateOfCharge maxPrice].
  rewrite Hs. repeat split; reflexivity.
Qed.

Lemma baseline_settings_never_change_witness :
  reachable newChargeMonitor
  /\ overrideSettingsValid mondayMorning
       (perform (CallMonitor [chargingTurn]) newChargeMonitor) = false
  /\ requiredTimeOf
       (getSettings mondayMorning (perform (CallMonitor [chargingTurn]) newChargeMonitor))
     = 13.
Proof.
  split; [exact reachable_new|].
  split; [vm_compute; reflexivity|].
  destruct (baseline_settings_never_change (CallMonitor [chargingTurn])
              newChargeMonitor mondayMorning) as (_ & _ & _ & H).
  - exact reachable_new.
  - vm_compute; reflexivity.
  - exact H.
Defined.

(** ** The turns of [monitor] *)

Lemma plugCommands_app tr1 tr2 :
  plugCommands (tr1 ++ tr2) = plugCommands tr1 ++ plugCommands tr2.
Proof.
  induction tr1 as [|e rest IH]; [reflexivity|].
  destruct e; simpl; now rewrite IH.
Qed.

Lemma shouldCharge_plugCommands now rates this :
  plugCommands (trace (shouldCharge now rates this)) = [].
Proof.
  destruct rates as [prices|e]; [|reflexivity].
  unfold shouldCharge, bind, await, get, when.
  destruct (lastElement _); [|reflexivity].
  destruct (Z.of_nat _ <? _); destruct (find isCurrentInterval prices); reflexivity.
Qed.

(** A call that throws leaves the instance as it was. *)
Lemma shouldCharge_rejected_instance now rates this e :
  outcome (shouldCharge now rates this) = Rejected e ->
  instance (shouldCharge now rates this) = this.
Proof.
  destruct rates as [prices|e']; [|reflexivity].
  unfold shouldCharge, bind, await, get, when.
  destruct (lastElement _); [|reflexivity].
  destruct (Z.of_nat _ <? _); destruct (find isCurrentInterval prices);
    try reflexivity; discriminate.
Qed.

Lemma recordPower_plugCommands start plug sampled this :
  plugCommands (trace (recordPower start plug sampled this)) = [].
Proof.
  destruct plug as [power|e]; [|reflexivity].
  unfold recordPower, bind, await, get, when.
  destruct (Qltb 1000 power); [|reflexivity].
  unfold emit. destruct (overrideSettingsValid sampled this); reflexivity.
Qed.

(** X14.  In every turn the plug is commanded at most once, and the
    command is the decision: on when [shouldCharge] returned [true], off when
    it returned [false], none when it threw, whatever happens later in the
    turn. *)
Theorem plug_command_is_the_decision (c : Cycle) (this : ChargeMonitor) :
  plugCommands (trace (monitorCycle c this))
  = match outcome (shouldCharge (evaluated c) (upcomingRates c) this) with
    | Resolved decision => [decision]
    | Rejected _ => []
    end.
Proof.
  pose proof (shouldCharge_plugCommands (evaluated c) (upcomingRates c) this) as H1.
  unfold monitorCycle, tryCatch, monitorTry, setMerossPlug, sleep, bind, emit, await.
  destruct (shouldCharge (evaluated c) (upcomingRates c) this)
    as [[[decision|e] this1] tr1]; unfold trace, outcome in *; cbn [fst snd] in *.
  - destruct decision.
    + destruct (plugSet c) as [[]|e].
      * pose proof (recordPower_plugCommands (recording c) (merossPlug c) (sampled c)
                      this1) as H2.
        destruct (recordPower (recording c) (merossPlug c) (sampled c) this1)
          as [[[isPluggedIn|e] this2] tr2]; unfold trace in H2;
          cbn [fst snd] in *;
          unfold setLastUpdate, bind, get, put; cbn [fst snd];
          rewrite !plugCommands_app, H1; cbn [plugCommands app];
          rewrite ?plugCommands_app, H2; reflexivity.
      * cbn [fst snd]. rewrite !plugCommands_app, H1. reflexivity.
    + destruct (plugSet c) as [[]|e];
        unfold setLastUpdate, bind, get, put; cbn [fst snd];
        rewrite !plugCommands_app, H1; reflexivity.
  - rewrite plugCommands_app, H1. reflexivity.
Qed.

Lemma last_app_nonempty {T} (l1 l2 : list T) d :
  l2 <> [] -> last (l1 ++ l2) d = last l2 d.
Proof.
  intros H. induction l1 as [|x rest IH]; [reflexivity|].
  simpl. rewrite IH. destruct (rest ++ l2) eqn:E; [|reflexivity].
  apply app_eq_nil in E. destruct E as [_ E]. congruence.
Qed.

(** X15.  The last thing every turn does is to ask the interruptible
    timer for a sleep: of 60000 ms after a failure, and otherwise of the
    minutes of [calculateTimeToNextMinute], so of 60000 to 1860000 ms.  This
    is the duration asked for; an interrupt can end the sleep sooner. *)
Theorem every_turn_ends_in_a_sleep (c : Cycle) (this : ChargeMonitor) :
  exists ms,
    last (trace (monitorCycle c this)) Interrupt = Sleep ms
    /\ ms = match outcome (monitorTry c this) with
            | Resolved _ => calculateTimeToNextMinute (scheduling c) * 60 * 1000
            | Rejected _ => 60000
            end
    /\ 60000 <= ms <= 1860000.
Proof.
  pose proof (calculateTimeToNextMinute_range (scheduling c)) as Hnext.
  eexists. split; [|split; [reflexivity|]].
  2: { destruct (outcome (monitorTry c this)); lia. }
  unfold monitorCycle, tryCatch, monitorTry, setMerossPlug, sleep, bind, emit, await.
  destruct (shouldCharge (evaluated c) (upcomingRates c) this)
    as [[[decision|e] this1] tr1]; unfold trace, outcome; cbn [fst snd].
  - destruct decision.
    + destruct (plugSet c) as [[]|e].
      * destruct (recordPower (recording c) (merossPlug c) (sampled c) this1)
          as [[[isPluggedIn|e] this2] tr2];
          unfold setLastUpdate, bind, get, put; cbn [fst snd];
          rewrite ?app_assoc; rewrite last_app_nonempty by discriminate;
          reflexivity.
      * cbn [fst snd]. rewrite ?app_assoc.
        rewrite last_app_nonempty by discriminate. reflexivity.
    + destruct (plugSet c) as [[]|e];
        unfold setLastUpdate, bind, get, put; cbn [fst snd];
        rewrite ?app_assoc; rewrite last_app_nonempty by discriminate;
        reflexivity.
  - rewrite last_app_nonempty by discriminate. reflexivity.
Qed.

(** X16.  A turn whose evaluation throws (the price source failed, the
    window was empty or no current interval was found) changes nothing in
    the instance: no snapshot is written, the error is logged and the turn
    backs off for 60 seconds. *)
Theorem failed_evaluation_changes_nothing
  (c : Cycle) (this : ChargeMonitor) (e : Error) :
  outcome (shouldCharge (evaluated c) (upcomingRates c) this) = Rejected e ->
  monitorCycle c this
  = (Resolved tt, this,
     trace (shouldCharge (evaluated c) (upcomingRates c) this)
     ++ [LogError e; LogInfo RetryAfterOneMinute; Sleep 60000]).
Proof.
  intros H.
  pose proof (shouldCharge_rejected_instance _ _ _ _ H) as Hi.
  unfold monitorCycle, tryCatch, monitorTry, bind, sleep, emit.
  destruct (shouldCharge (evaluated c) (upcomingRates c) this)
    as [[[decision|e'] this1] tr1]; unfold outcome, instance, trace in *;
    cbn [fst snd] in *; [discriminate|].
  injection H as ->. subst this1. reflexivity.
Qed.

Lemma failed_evaluation_changes_nothing_witness :
  outcome (shouldCharge (evaluated lateTurn) (upcomingRates lateTurn) overriddenMonitor)
  = Rejected TypeErrorUndefinedPerKwh
  /\ instance (monitorCycle lateTurn overriddenMonitor) = overriddenMonitor.
Proof.
  split; [vm_compute; reflexivity|].
  rewrite (failed_evaluation_changes_nothing lateTurn overriddenMonitor
             TypeErrorUndefinedPerKwh).
  - reflexivity.
  - vm_compute; reflexivity.
Defined.

(** X17.  A turn that decides not to charge, with a plug that takes the
    command, records [isPluggedIn = false] and leaves the charging history
    and the override as they were. *)
Theorem idle_turn_keeps_history_and_override (c : Cycle) (this : ChargeMonitor) :
  outcome (shouldCharge (evaluated c) (upcomingRates c) this) = Resolved false ->
  plugSet c = Resolved tt ->
  outcome (monitorCycle c this) = Resolved tt
  /\ lu_isPluggedIn (lastUpdate (instance (monitorCycle c this))) = Present false
  /\ lu_charge (lastUpdate (instance (monitorCycle c this))) = Present false
  /\ lu_chargingTimes (lastUpdate (instance (monitorCycle c this)))
     = lu_chargingTimes (lastUpdate this)
  /\ overrideSettings (instance (monitorCycle c this)) = overrideSettings this.
Proof.
  intros Hd Hset.
  destruct (shouldCharge_returns_inv _ _ _ _ Hd)
    as (prices & top & current & Hrates & Htop & Hcur).
  destruct (shouldCharge_resolved (evaluated c) this prices top current Htop Hcur)
    as (Hout & _ & _ & _ & Hhist & Hover & _).
  rewrite <- Hrates in Hout, Hhist, Hover.
  rewrite Hd in Hout. injection Hout as Hfalse.
  assert (Hcharge : lu_charge
                      (lastUpdate
                         (instance (shouldCharge (evaluated c) (upcomingRates c) this)))
                    = Present false).
  { rewrite Hrates. unfold cheapestWindow in Htop.
    unfold shouldCharge, bind, await, get, when. rewrite Htop, Hcur.
    rewrite Hfalse.
    destruct (Z.of_nat _ <? _); reflexivity. }
  unfold monitorCycle, tryCatch, monitorTry, setMerossPlug, sleep, bind, emit, await.
  rewrite Hset.
  destruct (shouldCharge (evaluated c) (upcomingRates c) this)
    as [[r this1] tr1]; unfold outcome, instance in *; cbn [fst snd] in *.
  subst r. unfold setLastUpdate, bind, get, put. cbn [fst snd].
  cbn [lastUpdate lu_isPluggedIn lu_charge lu_chargingTimes spreadUpdate spread
       overrideSettings].
  repeat split; assumption.
Qed.

Lemma idle_turn_keeps_history_and_override_witness :
  outcome (shouldCharge mondayMorning
             (Resolved (interval 1 40 CurrentInterval :: twelveIntervals))
             newChargeMonitor) = Resolved false
  /\ outcome
       (monitorCycle
          {| evaluated := mondayMorning;
             upcomingRates :=
               Resolved (interval 1 40 CurrentInterval :: twelveIntervals);
             plugSet := Resolved tt;
             recording := mondayMorning;
             merossPlug := Resolved 0%Q;
             sampled := mondayMorning;
             scheduling := mondayMorning |} newChargeMonitor)
     = Resolved tt.
Proof.
  split; [vm_compute; reflexivity|].
  destruct (idle_turn_keeps_history_and_override
              {| evaluated := mondayMorning;
                 upcomingRates :=
                   Resolved (interval 1 40 CurrentInterval :: twelveIntervals);
                 plugSet := Resolved tt;
                 recording := mondayMorning;
                 merossPlug := Resolved 0%Q;
                 sampled := mondayMorning;
                 scheduling := mondayMorning |} newChargeMonitor) as [H _].
  - vm_compute; reflexivity.
  - reflexivity.
  - exact H.
Defined.

(** ** The history under successive snapshots *)

(** X18.  Under any succession of [setLastUpdate] calls none of whose
    snapshots holds [undefined] at [chargingTimes], the charging history
    only grows: it is what it was, followed by the entries of the snapshots
    in the order of the calls. *)
Theorem history_grows_under_defined_updates
  (updates : list LastUpdate) (this : ChargeMonitor) :
  Forall definedChargingTimes updates ->
  history (applyUpdates updates this)
  = history this ++ List.concat (map entriesOf updates).
Proof.
  intros H. revert this.
  induction H as [|values rest Hv _ IH]; intros this; simpl.
  - now rewrite app_nil_r.
  - unfold applyUpdates in *. simpl. rewrite IH, setLastUpdate_history.
    unfold entriesOf at 2. unfold definedChargingTimes in Hv.
    destruct (lu_chargingTimes values) as [| |entries].
    + reflexivity.
    + congruence.
    + now rewrite app_assoc.
Qed.

Lemma history_grows_under_defined_updates_witness :
  let snapshot := lastUpdate (instance (monitor [chargingTurn] newChargeMonitor)) in
  Forall definedChargingTimes [snapshot; emptyUpdate; snapshot]
  /\ history (applyUpdates [snapshot; emptyUpdate; snapshot] newChargeMonitor)
     = history newChargeMonitor
       ++ List.concat (map entriesOf [snapshot; emptyUpdate; snapshot]).
Proof.
  intros snapshot.
  assert (H : Forall definedChargingTimes [snapshot; emptyUpdate; snapshot]).
  { repeat constructor; vm_compute; discriminate. }
  split; [exact H|].
  apply (history_grows_under_defined_updates [snapshot; emptyUpdate; snapshot]
           newChargeMonitor).
  exact H.
Defined.

(** ** Sampling without an override *)

(** X19.  While no override is valid, [recordPower] changes nothing in the
    instance: the increment is dropped.  It still answers whether the plug
    draws strictly more than 1000 W (exactly 1000 W is not charging), and a
    failure of the plug is passed on. *)
Theorem recordPower_without_override_changes_nothing
  (start sampled : Clock) (plug : Outcome Q) (this : ChargeMonitor) :
  overrideSettingsValid sampled this = false ->
  instance (recordPower start plug sampled this) = this
  /\ outcome (recordPower start plug sampled this)
     = match plug with
       | Resolved power => Resolved (Qltb 1000 power)
       | Rejected e => Rejected e
       end
  /\ (forall power, plug = Resolved power ->
                    (outcome (recordPower start plug sampled this) = Resolved true
                     <-> (1000 < power)%Q)).
Proof.
  intros Hv.
  assert (H : instance (recordPower start plug sampled this) = this
              /\ outcome (recordPower start plug sampled this)
                 = match plug with
                   | Resolved power => Resolved (Qltb 1000 power)
                   | Rejected e => Rejected e
                   end).
  { destruct plug as [power|e]; [|split; reflexivity].
    unfold recordPower, bind, await, get, when, emit.
    destruct (Qltb 1000 power); [|split; reflexivity].
    cbv beta iota. rewrite Hv. split; reflexivity. }
  destruct H as [Hi Ho]. split; [exact Hi|]. split; [exact Ho|].
  intros power ->. rewrite Ho. rewrite <- Qltb_lt.
  split; [now intros [= ->]|now intros ->].
Qed.

Lemma recordPower_without_override_changes_nothing_witness :
  overrideSettingsValid mondayMorning newChargeMonitor = false
  /\ instance (recordPower mondayMorning (Resolved 1000%Q) mondayMorning newChargeMonitor)
     = newChargeMonitor
  /\ outcome (recordPower mondayMorning (Resolved 1000%Q) mondayMorning newChargeMonitor)
     = Resolved false.
Proof.
  split; [reflexivity|].
  destruct (recordPower_without_override_changes_nothing mondayMorning mondayMorning
              (Resolved 1000%Q) newChargeMonitor) as (Hi & Ho & _).
  - reflexivity.
  - split; [exact Hi|]. rewrite Ho. reflexivity.
Defined.
